(** * Expense-message classifier (App.tsx): a shallow embedding and its properties

    The development follows [src/App.tsx]:
    - JavaScript strings are sequences of code units; bodies, senders and
      queries are modelled as [string], each [ascii] read as a code unit in
      the range 0..255 (Latin-1).  [toLowerCase] is the Unicode lower-casing
      restricted to that range.
    - JavaScript numbers that the code handles are millisecond time stamps;
      they are modelled by [jsnum]: an integer, or [NaN] (what arithmetic on a
      missing or non-numeric [date_sent] produces).
    - The regular expression of [parseMessageDetails] is kept as a syntax
      tree and run by a backtracking matcher with the priorities of the
      ECMAScript matcher.
    - [Date.now()], thrown [TypeError]s and React state updates are explicit:
      a small state-and-exception monad threads the number of clock reads. *)

From Stdlib Require Import ZArith List String Ascii Bool Lia Arith.
From Stdlib Require Import DecimalString.
Import ListNotations.

Local Open Scope string_scope.

(** ** JavaScript strings *)

Module JsString.

Definition code (a : ascii) : nat := nat_of_ascii a.

(** [String.prototype.toLowerCase] on one code unit of the Latin-1 range:
    A-Z, and the accented capitals U+00C0..U+00DE except the
    multiplication sign U+00D7, move up by 32. *)
Definition lower_char (a : ascii) : ascii :=
  let n := code a in
  if (((65 <=? n) && (n <=? 90))
      || ((192 <=? n) && (n <=? 222) && negb (n =? 215)))%nat
  then ascii_of_nat (n + 32) else a.

Fixpoint toLowerCase (s : string) : string :=
  match s with
  | EmptyString => EmptyString
  | String a s' => String (lower_char a) (toLowerCase s')
  end.

(** [startsWith s p]: [p] is a prefix of [s]. *)
Fixpoint startsWith (s p : string) {struct p} : bool :=
  match p, s with
  | EmptyString, _ => true
  | String b p', String a s' => Ascii.eqb a b && startsWith s' p'
  | String _ _, EmptyString => false
  end.

(** [String.prototype.includes]: [sub] occurs in [s] at some position. *)
Fixpoint includes (s sub : string) : bool :=
  startsWith s sub ||
  match s with
  | EmptyString => false
  | String _ s' => includes s' sub
  end.

End JsString.
Import JsString.

(** ** JavaScript numbers, as far as the code uses them

    [Num z] is an integer number of milliseconds; [NaN] is the value that
    [Date.now() - date_sent] and [new Date(date_sent)] take when
    [date_sent] is undefined or is text that is not a number. *)

Inductive jsnum : Type :=
| Num (z : Z)
| NaN.

Module JsNum.

Definition sub (a b : jsnum) : jsnum :=
  match a, b with
  | Num x, Num y => Num (x - y)
  | _, _ => NaN
  end.

(** [Math.floor(a / d)] for a positive integer constant [d]. On integer
    time stamps below 2^53 the floating-point quotient floors to the
    integer quotient. *)
Definition floor_div (a : jsnum) (d : Z) : jsnum :=
  match a with
  | Num x => Num (x / d)
  | NaN => NaN
  end.

(** [a < c]: every comparison with NaN is false. *)
Definition ltb (a : jsnum) (c : Z) : bool :=
  match a with
  | Num x => (x <? c)%Z
  | NaN => false
  end.

Definition string_of_Z (z : Z) : string :=
  NilZero.string_of_int (Z.to_int z).

(** The text a template literal inserts for a number. *)
Definition to_string (a : jsnum) : string :=
  match a with
  | Num x => string_of_Z x
  | NaN => "NaN"
  end.

End JsNum.

(** ** Regular expressions: syntax and the backtracking matcher *)

Module Regex.

Inductive regex : Type :=
| Eps
| Chr (p : ascii -> bool)        (* one code unit of a class *)
| Seq (r1 r2 : regex)            (* r1 r2 *)
| Alt (r1 r2 : regex)            (* r1|r2, the left branch is tried first *)
| Opt (r : regex)                (* r?, greedy *)
| Star (r : regex)               (* r*, greedy *)
| Group (i : nat) (r : regex).   (* the i-th capturing group *)

(** r+ and r{n} are the usual abbreviations; (?:r) is r itself. *)
Definition Plus (r : regex) : regex := Seq r (Star r).

Fixpoint Repeat (n : nat) (r : regex) : regex :=
  match n with
  | O => Eps
  | S O => r
  | S n' => Seq r (Repeat n' r)
  end.

(** Captures: group number to captured text, unset groups are [None]. *)
Definition captures : Type := nat -> option string.

Definition no_captures : captures := fun _ => None.

Definition set_capture (i : nat) (v : string) (c : captures) : captures :=
  fun j => if Nat.eqb j i then Some v else c j.

Definition cont : Type := string -> captures -> option captures.

(** First success: the value of [x] unless it failed, else [y]. *)
Definition orelse (x y : option captures) : option captures :=
  match x with
  | Some v => Some v
  | None => y
  end.

(** The greedy loop of r*: one more iteration of [step] as long as it
    consumes input, then the continuation; when the iteration or what
    follows it fails, the continuation at the current position. The fuel
    bounds the number of iterations by the length of the input. *)
Fixpoint star_loop (step : string -> captures -> cont -> option captures)
    (k : cont) (fuel : nat) (s : string) (c : captures)
  {struct fuel} : option captures :=
  match fuel with
  | O => k s c
  | S fuel' =>
      orelse
        (step s c
           (fun s' c' =>
              if (length s' <? length s)%nat
              then star_loop step k fuel' s' c' else None))
        (k s c)
  end.

(** [run r s c k]: match [r] at the head of [s], then hand the rest of the
    input to the continuation [k]; the first alternative for which the
    continuation succeeds wins, as in the ECMAScript matcher. An
    iteration of [Star] that consumes nothing is rejected. (Captures set
    inside an iteration are not reset: no pattern here has a group inside
    a quantifier.) *)
Fixpoint run (r : regex) (s : string) (c : captures) (k : cont)
  {struct r} : option captures :=
  match r with
  | Eps => k s c
  | Chr p =>
      match s with
      | String a s' => if p a then k s' c else None
      | EmptyString => None
      end
  | Seq r1 r2 => run r1 s c (fun s' c' => run r2 s' c' k)
  | Alt r1 r2 => orelse (run r1 s c k) (run r2 s c k)
  | Opt r1 => orelse (run r1 s c k) (k s c)
  | Star r1 => star_loop (run r1) k (length s) s c
  | Group i r1 =>
      run r1 s c
        (fun s' c' =>
           k s' (set_capture i (substring 0 (length s - length s') s) c'))
  end.

(** [String.prototype.match] with a non-global pattern: the left-most
    start position at which the pattern matches. *)
Fixpoint exec (r : regex) (s : string) : option captures :=
  orelse (run r s no_captures (fun _ c => Some c))
         match s with
         | EmptyString => None
         | String _ s' => exec r s'
         end.

(** *** Character classes *)

(** Canonicalize of a case-insensitive pattern without the unicode flag.
    Code units from 128 on never canonicalize to an ASCII letter, so for
    the ASCII letters of the patterns below only a-z matter. *)
Definition canonicalize (a : ascii) : ascii :=
  let n := code a in
  if ((97 <=? n) && (n <=? 122))%nat then ascii_of_nat (n - 32) else a.

Definition ci (x : ascii) : regex :=
  Chr (fun a => Ascii.eqb (canonicalize a) (canonicalize x)).

Definition lit (x : ascii) : regex := Chr (fun a => Ascii.eqb a x).

(** \d *)
Definition is_digit (a : ascii) : bool :=
  let n := code a in ((48 <=? n) && (n <=? 57))%nat.

(** \s, within the Latin-1 range: TAB, LF, VT, FF, CR, space and NBSP. *)
Definition is_space (a : ascii) : bool :=
  let n := code a in
  (((9 <=? n) && (n <=? 13)) || (n =? 32) || (n =? 160))%nat.

Definition digit : regex := Chr is_digit.
Definition space : regex := Chr is_space.

End Regex.
Import Regex.

(** ** The amount pattern of [parseMessageDetails]

    [/(?:INR|Rs\.?)\s?(\d+(?:,\d{3})*(?:\.\d+)?)/i] *)

Definition currency : regex :=
  Alt (Seq (ci "I") (Seq (ci "N") (ci "R")))
      (Seq (ci "R") (Seq (ci "s") (Opt (lit ".")))).

Definition number : regex :=
  Seq (Plus digit)
      (Seq (Star (Seq (lit ",") (Repeat 3 digit)))
           (Opt (Seq (lit ".") (Plus digit)))).

Definition amount_regex : regex :=
  Seq currency (Seq (Opt space) (Group 1 number)).

(** [amountMatch ? amountMatch[1] : 'N/A']. Group 1 is not under a
    quantifier or an alternative, so a match always sets it (lemma
    [amount_regex_sets_group]); the inner default is never taken. *)
Definition extractAmount (body : string) : string :=
  match exec amount_regex body with
  | Some m => match m 1%nat with Some v => v | None => "undefined" end
  | None => "N/A"
  end.

(** ** Effects: exceptions and the clock *)

Inductive exn : Type := TypeError.

Inductive result (A : Type) : Type :=
| Ok (a : A)
| Throw (e : exn).
Arguments Ok {A} a.
Arguments Throw {A} e.

(** A computation reads the clock some number of times and either returns
    or throws; the state is the number of [Date.now()] calls made so far. *)
Definition M (A : Type) : Type := nat -> result (A * nat).

Definition ret {A} (a : A) : M A := fun n => Ok (a, n).

Definition bind {A B} (m : M A) (f : A -> M B) : M B :=
  fun n => match m n with
           | Ok (a, n') => f a n'
           | Throw e => Throw e
           end.

Definition throw {A} (e : exn) : M A := fun _ => Throw e.

Declare Scope js_scope.
Delimit Scope js_scope with js.
Notation "x <- m ;; k" := (bind m (fun x => k))
  (at level 61, m at next level, right associativity) : js_scope.
Local Open Scope js_scope.

Fixpoint filterM {A} (p : A -> M bool) (l : list A) : M (list A) :=
  match l with
  | [] => ret []
  | x :: l' =>
      b <- p x;;
      r <- filterM p l';;
      ret (if b then x :: r else r)
  end.

Fixpoint mapM {A B} (f : A -> M B) (l : list A) : M (list B) :=
  match l with
  | [] => ret []
  | x :: l' =>
      y <- f x;;
      r <- mapM f l';;
      ret (y :: r)
  end.

(** ** Data model *)

(** An element of [JSON.parse(smsList)], typed [any] in the source: a field
    may be missing. *)
Module Sms.
Record t : Type := mk {
  _id : Z;
  address : option string;
  body : option string;
  date_sent : jsnum
}.
End Sms.

(** Reading a property of [message.body]: a [TypeError] when the body is
    undefined. *)
Definition body_of (message : Sms.t) : M string :=
  match Sms.body message with
  | Some b => ret b
  | None => throw TypeError
  end.

Inductive txn_type : Type := debited | credited.

Definition txn_type_eqb (a b : txn_type) : bool :=
  match a, b with
  | debited, debited | credited, credited => true
  | _, _ => false
  end.

(** [interface SmsMessage] *)
Module SmsMessage.
Record t : Type := mk {
  id : Z;
  body : string;
  sender : string;
  amount : string;
  date : string;
  timeAgo : string;
  type : txn_type;
  category : option string
}.
End SmsMessage.

(** The filter buttons: ['all' | 'credited' | 'debited']. *)
Inductive view_filter : Type :=
| all
| only (t : txn_type).

Module App.
Section Defs.

(** The readings of [Date.now()], in call order. *)
Variable now : nat -> Z.

(** [Date.prototype.toLocaleDateString] of a valid time value; the text
    depends on the locale of the device. *)
Variable toLocaleDateString : Z -> string.

Definition Date_now : M jsnum := fun n => Ok (Num (now n), S n).

(** [new Date(v).toLocaleDateString()]: a time value beyond 8.64e15 ms
    in magnitude, or NaN, gives an invalid date. *)
Definition localeDate (v : jsnum) : string :=
  match v with
  | Num z =>
      if (Z.abs z <=? 8640000000000000)%Z then toLocaleDateString z
      else "Invalid Date"
  | NaN => "Invalid Date"
  end.

Definition extractCategory (messageBody : string) : option string :=
  if includes (toLowerCase messageBody) "grocery" then Some "Grocery"
  else if includes (toLowerCase messageBody) "dining" then Some "Dining"
  else if includes (toLowerCase messageBody) "shopping" then Some "Shopping"
  else None.

Definition calculateTimeAgo (dateSent : jsnum) : M string :=
  t <- Date_now;;
  let diffInMinutes := JsNum.floor_div (JsNum.sub t dateSent) (1000 * 60) in
  if JsNum.ltb diffInMinutes 60
  then ret (JsNum.to_string diffInMinutes ++ " minute(s) ago")
  else
    let diffInHours := JsNum.floor_div diffInMinutes 60 in
    if JsNum.ltb diffInHours 24
    then ret (JsNum.to_string diffInHours ++ " hour(s) ago")
    else ret (JsNum.to_string (JsNum.floor_div diffInHours 24)
                ++ " day(s) ago").

(** [message.address || 'Unknown']: undefined and the empty string are
    falsy. *)
Definition sender_of (address : option string) : string :=
  match address with
  | Some (String a s) => String a s
  | Some EmptyString | None => "Unknown"
  end.

Definition parseMessageDetails (message : Sms.t) : M SmsMessage.t :=
  body <- body_of message;;
  let amount := extractAmount body in
  let type :=
    if includes (toLowerCase body) "debited" then debited else credited in
  let category := extractCategory body in
  timeAgo <- calculateTimeAgo (Sms.date_sent message);;
  ret {| SmsMessage.id := Sms._id message;
         SmsMessage.body := body;
         SmsMessage.sender := sender_of (Sms.address message);
         SmsMessage.amount := amount;
         SmsMessage.date := localeDate (Sms.date_sent message);
         SmsMessage.timeAgo := timeAgo;
         SmsMessage.type := type;
         SmsMessage.category := category |}.

(** The callback of [.filter] in the success handler. *)
Definition retained (msg : Sms.t) : M bool :=
  body <- body_of msg;;
  ret (includes body "debited" || includes body "credited").

(** [JSON.parse(smsList).filter(...).map(parseMessageDetails)], on the
    parsed array. *)
Definition parsedMessages (smsList : list Sms.t) : M (list SmsMessage.t) :=
  kept <- filterM retained smsList;;
  mapM parseMessageDetails kept.

(** *** Component state and the fetch *)

Record AppState : Type := mkApp {
  messages : list SmsMessage.t;
  loading : bool;
  console : list string          (* what console.error has printed *)
}.

Definition setLoading (b : bool) (st : AppState) : AppState :=
  {| messages := messages st; loading := b; console := console st |}.

Definition setMessages (l : list SmsMessage.t) (st : AppState) : AppState :=
  {| messages := l; loading := loading st; console := console st |}.

Definition console_error (line : string) (st : AppState) : AppState :=
  {| messages := messages st; loading := loading st;
     console := console st ++ [line] |}.

(** What [SmsAndroid.list] does with its two callbacks. The success
    callback is given the array that [JSON.parse(smsList)] returns: the
    native module hands over well-formed JSON. *)
Inductive list_outcome : Type :=
| Failure (fail : string)
| Success (count : Z) (smsList : list Sms.t).

Definition fetchSmsMessages (o : list_outcome) (st : AppState)
  : M AppState :=
  let st := setLoading true st in
  match o with
  | Failure fail =>
      let st := console_error ("Failed to read SMS: " ++ fail) st in
      ret (setLoading false st)
  | Success count smsList =>
      parsed <- parsedMessages smsList;;
      let st := setMessages parsed st in
      ret (setLoading false st)
  end.

(** *** The view: [filteredMessages] *)

Definition filteredMessages (messages : list SmsMessage.t)
    (filter : view_filter) (searchQuery : string) : list SmsMessage.t :=
  List.filter
    (fun msg =>
       let query := toLowerCase searchQuery in
       includes (toLowerCase (SmsMessage.body msg)) query
       || includes (toLowerCase (SmsMessage.sender msg)) query)
    (List.filter
       (fun msg =>
          match filter with
          | all => true
          | only f => txn_type_eqb (SmsMessage.type msg) f
          end)
       messages).

End Defs.
End App.

(** ** Records of the data model

    A [RawMessage] of the data model has a body; its address may be missing
    and its [date_sent] may be unusable. [RawMessage.to_js] is the object the
    code receives for it. *)
Module RawMessage.
Record t : Type := mk {
  _id : Z;
  address : option string;
  body : string;
  date_sent : jsnum
}.

Definition to_js (r : t) : Sms.t :=
  {| Sms._id := _id r;
     Sms.address := address r;
     Sms.body := Some (body r);
     Sms.date_sent := date_sent r |}.
End RawMessage.

(** ** The amount pattern, read as a left-to-right scan

    The wording of the specification: a currency marker INR or Rs (with an
    optional period), in any letter case; at most one white-space character;
    a run of digits, then groups of a comma and three digits, then an
    optional period with digits. Each function returns the text it takes
    and the rest of the input. *)
Module AmountSpec.

(** The longest run of code units of a class. *)
Fixpoint span (p : ascii -> bool) (s : string) : string * string :=
  match s with
  | String a s' =>
      if p a
      then let (t, r) := span p s' in (String a t, r)
      else (EmptyString, s)
  | EmptyString => (EmptyString, EmptyString)
  end.

Definition same_letter (a x : ascii) : bool :=
  Ascii.eqb (lower_char a) (lower_char x).

(** The rest of the input after a currency marker at its head. *)
Definition marker (s : string) : option string :=
  match s with
  | String a (String b r) =>
      match r with
      | String c r' =>
          if same_letter a "I" && same_letter b "N" && same_letter c "R"
          then Some r'
          else if same_letter a "R" && same_letter b "s"
          then Some (if Ascii.eqb c "." then r' else r)
          else None
      | EmptyString =>
          if same_letter a "R" && same_letter b "s" then Some r else None
      end
  | _ => None
  end.

Definition one_space (s : string) : string :=
  match s with
  | String a r => if is_space a then r else s
  | EmptyString => s
  end.

(** Thousands groups: a comma and exactly three digits, as often as they
    follow. *)
Fixpoint groups (s : string) : string * string :=
  match s with
  | String c0 (String d1 (String d2 (String d3 r))) =>
      if Ascii.eqb c0 "," && is_digit d1 && is_digit d2 && is_digit d3
      then let (t, r') := groups r in
           (String c0 (String d1 (String d2 (String d3 t))), r')
      else (EmptyString, s)
  | _ => (EmptyString, s)
  end.

(** The decimal fraction: a period and at least one digit. *)
Definition fraction (s : string) : string * string :=
  match s with
  | String a r =>
      if Ascii.eqb a "."
      then match span is_digit r with
           | (EmptyString, _) => (EmptyString, s)
           | (t, r') => (String a t, r')
           end
      else (EmptyString, s)
  | EmptyString => (EmptyString, s)
  end.

Definition numeral (s : string) : option (string * string) :=
  match span is_digit s with
  | (EmptyString, _) => None
  | (d, r1) =>
      let (g, r2) := groups r1 in
      let (f, r3) := fraction r2 in
      Some (d ++ g ++ f, r3)
  end.

(** The numeric text of an amount that starts at the head of [s]. *)
Definition amount_at (s : string) : option string :=
  match marker s with
  | Some r =>
      match numeral (one_space r) with
      | Some (t, _) => Some t
      | None => None
      end
  | None => None
  end.

(** The amount at the left-most position that has one, else "N/A". *)
Fixpoint amount (s : string) : string :=
  match amount_at s with
  | Some t => t
  | None =>
      match s with
      | EmptyString => "N/A"
      | String _ s' => amount s'
      end
  end.

End AmountSpec.

(** ** The search of the view, in the words of the specification *)
Module ViewSpec.

(** [q] occurs in [s] when letter case is ignored. *)
Definition ci_substring (q s : string) : Prop :=
  exists pre post, toLowerCase s = pre ++ toLowerCase q ++ post.

(** The direction predicate: every message under [all], else the
    messages of the chosen direction. *)
Definition direction_ok (f : view_filter) (m : SmsMessage.t) : bool :=
  match f with
  | all => true
  | only d => txn_type_eqb (SmsMessage.type m) d
  end.

(** The search predicate, decided with [includes]. *)
Definition search_ok (q : string) (m : SmsMessage.t) : bool :=
  includes (toLowerCase (SmsMessage.body m)) (toLowerCase q)
  || includes (toLowerCase (SmsMessage.sender m)) (toLowerCase q).

Definition shown (f : view_filter) (q : string) (m : SmsMessage.t) : bool :=
  direction_ok f m && search_ok q m.

End ViewSpec.

(** ** The shape of a text *)
Module Shape.

Fixpoint all_chars (p : ascii -> bool) (s : string) : bool :=
  match s with
  | EmptyString => true
  | String a s' => p a && all_chars p s'
  end.

Definition first_char (p : ascii -> bool) (s : string) : bool :=
  match s with
  | EmptyString => false
  | String a _ => p a
  end.

Fixpoint last_char (p : ascii -> bool) (s : string) : bool :=
  match s with
  | EmptyString => false
  | String a EmptyString => p a
  | String _ s' => last_char p s'
  end.

(** The code units an extracted amount is made of. *)
Definition amount_char (a : ascii) : bool :=
  is_digit a || Ascii.eqb a "," || Ascii.eqb a ".".

End Shape.

(** ** Reading the result of a batch *)

(** The retention test of the success handler, on a record with a body. *)
Definition keeps (r : RawMessage.t) : bool :=
  includes (RawMessage.body r) "debited"
  || includes (RawMessage.body r) "credited".

Section Outputs.

Variable now : nat -> Z.
Variable toLocaleDateString : Z -> string.

(** [outputs n kept out]: [out] lists, in order, what
    [parseMessageDetails] returns for each record of [kept], the first
    one reading the clock at its [n]-th tick. *)
Fixpoint outputs (n : nat) (kept : list RawMessage.t)
    (out : list SmsMessage.t) : Prop :=
  match kept, out with
  | [], [] => True
  | r :: kept', c :: out' =>
      App.parseMessageDetails now toLocaleDateString (RawMessage.to_js r) n
        = Ok (c, S n)
      /\ outputs (S n) kept' out'
  | _, _ => False
  end.

End Outputs.

(** * Properties *)

(** ** Strings *)

Section StringFacts.

Lemma startsWith_app (p s : string) : startsWith (p ++ s) p = true.
Proof.
  induction p as [|a p IH]; simpl; [reflexivity|].
  now rewrite Ascii.eqb_refl, IH.
Qed.

Lemma startsWith_inv (p s : string) :
  startsWith s p = true -> exists post, s = p ++ post.
Proof.
  revert s; induction p as [|a p IH]; intros s H; simpl in *.
  - now exists s.
  - destruct s as [|b s]; [discriminate|].
    apply andb_true_iff in H as [Hab H].
    apply Ascii.eqb_eq in Hab; subst b.
    destruct (IH _ H) as [post ->]. now exists post.
Qed.

Lemma includes_startsWith (s sub : string) :
  startsWith s sub = true -> includes s sub = true.
Proof. intros H. destruct s; simpl; now rewrite H. Qed.

(** [includes] is the substring relation. *)
Lemma includes_iff (s sub : string) :
  includes s sub = true <-> exists pre post, s = pre ++ sub ++ post.
Proof.
  split.
  - induction s as [|a s IH]; simpl; intros H.
    + rewrite orb_false_r in H.
      destruct (startsWith_inv _ _ H) as [post E].
      exists EmptyString, post. exact E.
    + apply orb_true_iff in H as [H|H].
      * destruct (startsWith_inv _ _ H) as [post E].
        exists EmptyString, post. exact E.
      * destruct (IH H) as (pre & post & ->).
        now exists (String a pre), post.
  - intros (pre & post & ->).
    induction pre as [|a pre IH]; simpl.
    + apply includes_startsWith, startsWith_app.
    + rewrite IH. apply orb_true_r.
Qed.

Lemma includes_empty (s : string) : includes s "" = true.
Proof. destruct s; reflexivity. Qed.

Lemma toLowerCase_app (s t : string) :
  toLowerCase (s ++ t) = toLowerCase s ++ toLowerCase t.
Proof. induction s as [|a s IH]; simpl; [reflexivity | now rewrite IH]. Qed.

Lemma lower_char_idem (a : ascii) : lower_char (lower_char a) = lower_char a.
Proof.
  destruct a as [[] [] [] [] [] [] [] []]; reflexivity.
Qed.

Lemma toLowerCase_idem (s : string) :
  toLowerCase (toLowerCase s) = toLowerCase s.
Proof.
  induction s as [|a s IH]; simpl; [reflexivity|].
  now rewrite lower_char_idem, IH.
Qed.

(** A lower-case word found in a text is found in the lower-cased text. *)
Lemma includes_lower (s w : string) :
  toLowerCase w = w -> includes s w = true ->
  includes (toLowerCase s) w = true.
Proof.
  intros Hw H. apply includes_iff in H as (pre & post & ->).
  apply includes_iff.
  exists (toLowerCase pre), (toLowerCase post).
  now rewrite !toLowerCase_app, Hw.
Qed.

End StringFacts.

(** ** The pipeline on records that have a body *)

Section Pipeline.

Variable now : nat -> Z.
Variable toLocaleDateString : Z -> string.

Local Abbreviation calculateTimeAgo := (App.calculateTimeAgo now).
Local Abbreviation parseMessageDetails :=
  (App.parseMessageDetails now toLocaleDateString).
Local Abbreviation parsedMessages :=
  (App.parsedMessages now toLocaleDateString).
Local Abbreviation outputs := (outputs now toLocaleDateString).
Local Abbreviation to_js := RawMessage.to_js.

(** The age text is computed with one reading of the clock and never
    throws. *)
Lemma calculateTimeAgo_returns (d : jsnum) (n : nat) :
  exists t, calculateTimeAgo d n = Ok (t, S n).
Proof.
  unfold App.calculateTimeAgo, bind, App.Date_now.
  destruct (JsNum.ltb _ 60); [eexists; reflexivity|].
  destruct (JsNum.ltb _ 24); eexists; reflexivity.
Qed.

Lemma parseMessageDetails_to_js (r : RawMessage.t) (n : nat) :
  exists t,
    calculateTimeAgo (RawMessage.date_sent r) n = Ok (t, S n) /\
    parseMessageDetails (to_js r) n =
      Ok ({| SmsMessage.id := RawMessage._id r;
             SmsMessage.body := RawMessage.body r;
             SmsMessage.sender := App.sender_of (RawMessage.address r);
             SmsMessage.amount := extractAmount (RawMessage.body r);
             SmsMessage.date := App.localeDate toLocaleDateString
                                  (RawMessage.date_sent r);
             SmsMessage.timeAgo := t;
             SmsMessage.type :=
               if includes (toLowerCase (RawMessage.body r)) "debited"
               then debited else credited;
             SmsMessage.category :=
               App.extractCategory (RawMessage.body r) |}, S n).
Proof.
  destruct (calculateTimeAgo_returns (RawMessage.date_sent r) n) as [t Ht].
  exists t. split; [exact Ht|].
  unfold App.parseMessageDetails, bind, body_of, ret; simpl.
  rewrite Ht. reflexivity.
Qed.

Lemma retained_to_js (r : RawMessage.t) (n : nat) :
  App.retained (to_js r) n = Ok (keeps r, n).
Proof. reflexivity. Qed.

Lemma filterM_retained (l : list RawMessage.t) (n : nat) :
  filterM App.retained (map to_js l) n = Ok (map to_js (filter keeps l), n).
Proof.
  induction l as [|r l IH]; [reflexivity|].
  simpl. unfold bind at 1. rewrite retained_to_js.
  unfold bind at 1. rewrite IH. unfold ret.
  destruct (keeps r); reflexivity.
Qed.

Lemma mapM_parse (kept : list RawMessage.t) (n : nat) :
  exists out,
    mapM parseMessageDetails (map to_js kept) n = Ok (out, n + List.length kept)
    /\ List.length out = List.length kept
    /\ outputs n kept out.
Proof.
  revert n; induction kept as [|r kept IH]; intros n.
  - exists []. simpl. unfold ret. now rewrite Nat.add_0_r.
  - destruct (parseMessageDetails_to_js r n) as (t & _ & Hp).
    destruct (IH (S n)) as (out & Hm & Hl & Ho).
    match type of Hp with _ = Ok (?c, _) => exists (c :: out) end.
    split; [|split; [|split]].
    + simpl. unfold bind at 1. rewrite Hp.
      unfold bind at 1. rewrite Hm. unfold ret.
      now rewrite Nat.add_succ_r.
    + simpl. now rewrite Hl.
    + exact Hp.
    + exact Ho.
Qed.

(** A batch of records with bodies is classified without an exception:
    the output lists the retained records in order. *)
Lemma parsedMessages_to_js (l : list RawMessage.t) (n : nat) :
  exists out,
    parsedMessages (map to_js l) n
      = Ok (out, n + List.length (filter keeps l))
    /\ List.length out = List.length (filter keeps l)
    /\ outputs n (filter keeps l) out.
Proof.
  destruct (mapM_parse (filter keeps l) n) as (out & Hm & Hl & Ho).
  exists out. unfold App.parsedMessages, bind.
  rewrite filterM_retained. auto.
Qed.

(** Every output record comes from a retained input record. *)
Lemma outputs_In (kept : list RawMessage.t) (out : list SmsMessage.t)
    (n : nat) (c : SmsMessage.t) :
  outputs n kept out -> In c out ->
  exists r k, In r kept /\ parseMessageDetails (to_js r) k = Ok (c, S k).
Proof.
  revert n out; induction kept as [|r kept IH]; intros n [|c' out] Ho Hin;
    simpl in *; try contradiction.
  destruct Ho as [Hp Ho]. destruct Hin as [->|Hin].
  - exists r, n. auto.
  - destruct (IH _ _ Ho Hin) as (r' & k & Hr & Hk).
    exists r', k. auto.
Qed.

Lemma parse_body (r : RawMessage.t) (k : nat) (c : SmsMessage.t) (k' : nat) :
  parseMessageDetails (to_js r) k = Ok (c, k') ->
  SmsMessage.body c = RawMessage.body r
  /\ SmsMessage.sender c = App.sender_of (RawMessage.address r)
  /\ SmsMessage.type c =
       if includes (toLowerCase (RawMessage.body r)) "debited"
       then debited else credited.
Proof.
  destruct (parseMessageDetails_to_js r k) as (t & _ & Hp).
  rewrite Hp. intros [= <- _]. simpl. auto.
Qed.

End Pipeline.

(** ** Helper facts for the claims *)

Section Helpers.

Variable now : nat -> Z.
Variable toLocaleDateString : Z -> string.

(** The age text for an integer time stamp: the hour and day counts of
    the code are floors of floors, which are the floors of the elapsed
    time in that unit. *)
Lemma calculateTimeAgo_Num (d : Z) (n : nat) :
  App.calculateTimeAgo now (Num d) n =
    Ok (if (now n - d) / 60000 <? 60
        then JsNum.string_of_Z ((now n - d) / 60000) ++ " minute(s) ago"
        else if (now n - d) / 3600000 <? 24
        then JsNum.string_of_Z ((now n - d) / 3600000) ++ " hour(s) ago"
        else JsNum.string_of_Z ((now n - d) / 86400000) ++ " day(s) ago",
        S n)%Z.
Proof.
  unfold App.calculateTimeAgo, bind, App.Date_now, ret. simpl.
  change (1000 * 60)%Z with 60000%Z.
  rewrite !Z.div_div by lia.
  change (60000 * 60)%Z with 3600000%Z.
  change (3600000 * 24)%Z with 86400000%Z.
  destruct (_ <? 60)%Z; [reflexivity|].
  destruct (_ <? 24)%Z; reflexivity.
Qed.

Lemma calculateTimeAgo_NaN (n : nat) :
  App.calculateTimeAgo now NaN n = Ok ("NaN day(s) ago", S n).
Proof. reflexivity. Qed.

Lemma txn_type_eqb_eq (a b : txn_type) : txn_type_eqb a b = true <-> a = b.
Proof. destruct a, b; simpl; split; congruence. Qed.

Lemma filter_filter {A} (p q : A -> bool) (l : list A) :
  filter q (filter p l) = filter (fun x => p x && q x) l.
Proof.
  induction l as [|x l IH]; simpl; [reflexivity|].
  destruct (p x); simpl; [destruct (q x)|]; now rewrite IH.
Qed.

Lemma filteredMessages_shown (msgs : list SmsMessage.t) (f : view_filter)
    (q : string) :
  App.filteredMessages msgs f q = filter (ViewSpec.shown f q) msgs.
Proof.
  unfold App.filteredMessages. rewrite filter_filter.
  apply filter_ext. intros m. unfold ViewSpec.shown, ViewSpec.direction_ok.
  reflexivity.
Qed.

Lemma search_ok_iff (q : string) (m : SmsMessage.t) :
  ViewSpec.search_ok q m = true <->
  ViewSpec.ci_substring q (SmsMessage.body m)
  \/ ViewSpec.ci_substring q (SmsMessage.sender m).
Proof.
  unfold ViewSpec.search_ok, ViewSpec.ci_substring.
  rewrite orb_true_iff, !includes_iff. reflexivity.
Qed.

Lemma direction_ok_iff (f : view_filter) (m : SmsMessage.t) :
  ViewSpec.direction_ok f m = true <->
  f = all \/ f = only (SmsMessage.type m).
Proof.
  destruct f as [|d]; simpl.
  - split; auto.
  - rewrite txn_type_eqb_eq. split.
    + intros ->; auto.
    + intros [H|H]; [discriminate | now injection H].
Qed.

End Helpers.

(** ** The claims about classification and the view *)

Section Claims.

Variable now : nat -> Z.
Variable toLocaleDateString : Z -> string.

Local Abbreviation calculateTimeAgo := (App.calculateTimeAgo now).
Local Abbreviation parseMessageDetails :=
  (App.parseMessageDetails now toLocaleDateString).
Local Abbreviation parsedMessages :=
  (App.parsedMessages now toLocaleDateString).
Local Abbreviation to_js := RawMessage.to_js.

(** C1: the batch with the single message from "BANK" with body
    "Rs.500 debited from a/c", sent 120000 ms before the clock reading,
    is classified into exactly one record: amount "500", direction
    debited, age "2 minute(s) ago", no category. *)
Theorem C1_scenario (n : nat) (i : Z) :
  parsedMessages
    [to_js {| RawMessage._id := i;
              RawMessage.address := Some "BANK";
              RawMessage.body := "Rs.500 debited from a/c";
              RawMessage.date_sent := Num (now n - 120000) |}] n
  = Ok ([{| SmsMessage.id := i;
            SmsMessage.body := "Rs.500 debited from a/c";
            SmsMessage.sender := "BANK";
            SmsMessage.amount := "500";
            SmsMessage.date :=
              App.localeDate toLocaleDateString (Num (now n - 120000));
            SmsMessage.timeAgo := "2 minute(s) ago";
            SmsMessage.type := debited;
            SmsMessage.category := None |}], S n).
Proof.
  set (r := RawMessage.mk _ _ _ _).
  change [to_js r] with (map to_js [r]).
  destruct (parseMessageDetails_to_js now toLocaleDateString r n)
    as (t & Ht & Hp).
  unfold App.parsedMessages, bind. rewrite filterM_retained.
  assert (Hk : keeps r = true) by (vm_compute; reflexivity).
  cbn [filter]. rewrite Hk. cbn [map mapM].
  unfold bind. rewrite Hp. unfold ret.
  cbn [RawMessage.date_sent r] in Ht.
  rewrite calculateTimeAgo_Num in Ht.
  replace (now n - (now n - 120000))%Z with 120000%Z in Ht by lia.
  assert (E : t = "2 minute(s) ago") by (vm_compute in Ht; congruence).
  subst t.
  assert (Ea : extractAmount (RawMessage.body r) = "500")
    by (vm_compute; reflexivity).
  rewrite Ea. reflexivity.
Qed.

(** C2: the output of a batch is no longer than the batch; every output
    record carries a body that contains "debited" or "credited" in exactly
    that letter case, so a message whose body contains neither is absent
    from the output; a body with only the capitalised "Debited" is dropped
    although [parseMessageDetails] on it gives the direction debited. *)
Theorem C2_filter_drops (l : list RawMessage.t) (n : nat) :
  exists out n',
    parsedMessages (map to_js l) n = Ok (out, n')
    /\ List.length out <= List.length l
    /\ (forall c, In c out ->
          includes (SmsMessage.body c) "debited" = true
          \/ includes (SmsMessage.body c) "credited" = true)
    /\ (forall r,
          includes (RawMessage.body r) "debited" = false ->
          includes (RawMessage.body r) "credited" = false ->
          (forall c, In c out -> SmsMessage.body c <> RawMessage.body r)
          /\ parsedMessages [to_js r] n = Ok ([], n)
          /\ (includes (toLowerCase (RawMessage.body r)) "debited" = true ->
              exists c, parseMessageDetails (to_js r) n = Ok (c, S n)
                        /\ SmsMessage.type c = debited)).
Proof.
  destruct (parsedMessages_to_js now toLocaleDateString l n)
    as (out & Hp & Hl & Ho).
  assert (Hbody : forall c, In c out ->
            includes (SmsMessage.body c) "debited" = true
            \/ includes (SmsMessage.body c) "credited" = true).
  { intros c Hc.
    destruct (outputs_In _ _ _ _ _ _ Ho Hc) as (r & k & Hr & Hk).
    apply filter_In in Hr as [_ Hr].
    apply parse_body in Hk as [-> _].
    now apply orb_true_iff in Hr. }
  exists out, (n + List.length (filter keeps l)).
  split; [exact Hp|]. split; [rewrite Hl; apply filter_length_le|].
  split; [exact Hbody|].
  intros r Hd Hc. split; [|split].
  - intros c Hin E. rewrite <- E in Hd, Hc.
    destruct (Hbody c Hin); congruence.
  - change [to_js r] with (map to_js [r]).
    unfold App.parsedMessages, bind. rewrite filterM_retained.
    simpl. unfold keeps. now rewrite Hd, Hc.
  - intros Hlow.
    destruct (parseMessageDetails_to_js now toLocaleDateString r n)
      as (t & _ & Hr).
    eexists. split; [exact Hr|]. simpl. now rewrite Hlow.
Qed.

(** C3: the direction of a classified message is debited when the
    lower-cased body contains "debited" and credited in every other case,
    whether or not "credited" occurs; this holds for the record of every
    message with a body and so for every record of a batch's output. *)
Theorem C3_direction (r : RawMessage.t) (l : list RawMessage.t) (n : nat) :
  (exists c,
      parseMessageDetails (to_js r) n = Ok (c, S n)
      /\ SmsMessage.type c =
           if includes (toLowerCase (RawMessage.body r)) "debited"
           then debited else credited)
  /\ (exists out n',
        parsedMessages (map to_js l) n = Ok (out, n')
        /\ Forall (fun c =>
                    SmsMessage.type c =
                      if includes (toLowerCase (SmsMessage.body c)) "debited"
                      then debited else credited) out).
Proof.
  split.
  - destruct (parseMessageDetails_to_js now toLocaleDateString r n)
      as (t & _ & Hr).
    eexists. split; [exact Hr|]. reflexivity.
  - destruct (parsedMessages_to_js now toLocaleDateString l n)
      as (out & Hp & Hl & Ho).
    exists out, (n + List.length (filter keeps l)). split; [exact Hp|].
    apply Forall_forall. intros c Hc.
    destruct (outputs_In _ _ _ _ _ _ Ho Hc) as (r' & k & _ & Hk).
    apply parse_body in Hk as (-> & _ & ->). reflexivity.
Qed.

(** C5: the category is found by testing the lower-cased body for
    "grocery", then "dining", then "shopping"; the first keyword present
    decides (so a body with both "grocery" and "dining" is Grocery), and
    with none of them present there is no category. *)
Theorem C5_category_order (body : string) :
  let low := toLowerCase body in
  (includes low "grocery" = true ->
     App.extractCategory body = Some "Grocery")
  /\ (includes low "grocery" = false -> includes low "dining" = true ->
        App.extractCategory body = Some "Dining")
  /\ (includes low "grocery" = false -> includes low "dining" = false ->
      includes low "shopping" = true ->
        App.extractCategory body = Some "Shopping")
  /\ (includes low "grocery" = false -> includes low "dining" = false ->
      includes low "shopping" = false ->
        App.extractCategory body = None).
Proof.
  unfold App.extractCategory. cbv zeta.
  repeat split; intros; repeat match goal with
                               | H : includes _ _ = _ |- _ => rewrite H; clear H
                               end; reflexivity.
Qed.

(** C6: the view keeps exactly the messages that pass the direction
    test (all of them under [all], else those of the chosen direction)
    and the search test (the query, ignoring letter case, occurs in the
    body or in the sender; the empty query occurs everywhere), in their
    original order; with the filter debited and an empty query it is the
    list of debited messages in their original order. *)
Theorem C6_view (msgs : list SmsMessage.t) (f : view_filter) (q : string) :
  App.filteredMessages msgs f q = filter (ViewSpec.shown f q) msgs
  /\ (forall m,
        ViewSpec.shown f q m = true <->
        (f = all \/ f = only (SmsMessage.type m))
        /\ (ViewSpec.ci_substring q (SmsMessage.body m)
            \/ ViewSpec.ci_substring q (SmsMessage.sender m)))
  /\ (forall m, In m (App.filteredMessages msgs f q) <->
                In m msgs /\ ViewSpec.shown f q m = true)
  /\ (forall m, ViewSpec.search_ok "" m = true)
  /\ App.filteredMessages msgs (only debited) ""
     = filter (fun m => txn_type_eqb (SmsMessage.type m) debited) msgs.
Proof.
  split; [apply filteredMessages_shown|].
  split.
  { intros m. unfold ViewSpec.shown.
    now rewrite andb_true_iff, direction_ok_iff, search_ok_iff. }
  split.
  { intros m. rewrite filteredMessages_shown. apply filter_In. }
  split.
  { intros m. unfold ViewSpec.search_ok. simpl.
    now rewrite includes_empty. }
  rewrite filteredMessages_shown. apply filter_ext. intros m.
  unfold ViewSpec.shown, ViewSpec.search_ok. simpl.
  now rewrite includes_empty, andb_true_r.
Qed.


(** C8: classification of records that have a body never throws,
    whatever their address and [date_sent]: a record without address gets
    the sender "Unknown", a record whose [date_sent] is not a number gets
    the fixed texts "NaN day(s) ago" and "Invalid Date", and a whole batch
    of such records is classified without an exception. *)
Theorem C8_malformed_records (r : RawMessage.t) (l : list RawMessage.t)
    (n : nat) :
  (exists c,
      parseMessageDetails (to_js r) n = Ok (c, S n)
      /\ (RawMessage.address r = None -> SmsMessage.sender c = "Unknown")
      /\ (RawMessage.date_sent r = NaN ->
            SmsMessage.timeAgo c = "NaN day(s) ago"
            /\ SmsMessage.date c = "Invalid Date"))
  /\ (exists out n', parsedMessages (map to_js l) n = Ok (out, n')).
Proof.
  split.
  - destruct (parseMessageDetails_to_js now toLocaleDateString r n)
      as (t & Ht & Hr).
    eexists. split; [exact Hr|]. simpl. split.
    + intros ->. reflexivity.
    + intros E. rewrite E in Ht |- *.
      rewrite calculateTimeAgo_NaN in Ht. injection Ht as <-. auto.
  - destruct (parsedMessages_to_js now toLocaleDateString l n)
      as (out & Hp & _).
    eauto.
Qed.

(** C9: when the message source reports a failure, the fetch returns
    normally, the list of classified messages is the one held before, the
    failure is written to the console and the loading flag is cleared. *)
Theorem C9_fetch_failure (st : App.AppState) (fail : string) (n : nat) :
  App.fetchSmsMessages now toLocaleDateString (App.Failure fail) st n
  = Ok ({| App.messages := App.messages st;
           App.loading := false;
           App.console :=
             App.console st ++ ["Failed to read SMS: " ++ fail] |}, n).
Proof. reflexivity. Qed.

(** C10: the output of a batch is the list of the records that pass the
    retention test, in input order, each replaced by what
    [parseMessageDetails] returns for it. *)
Theorem C10_order_preserved (l : list RawMessage.t) (n : nat) :
  (forall r k, App.retained (to_js r) k = Ok (keeps r, k))
  /\ exists out,
       parsedMessages (map to_js l) n
         = Ok (out, n + List.length (filter keeps l))
       /\ List.length out = List.length (filter keeps l)
       /\ outputs now toLocaleDateString n (filter keeps l) out.
Proof.
  split; [reflexivity|].
  apply parsedMessages_to_js.
Qed.

End Claims.

(** X16: in the output of a batch the direction credited is only given
    to bodies that contain "credited": the retention test has let them pass
    and they do not contain "debited". *)
Lemma credited_output_contains_credited (now : nat -> Z)
    (toLocaleDateString : Z -> string) (l : list RawMessage.t) (n n' : nat)
    (out : list SmsMessage.t) (c : SmsMessage.t) :
  App.parsedMessages now toLocaleDateString (map RawMessage.to_js l) n
    = Ok (out, n') ->
  In c out -> SmsMessage.type c = credited ->
  includes (SmsMessage.body c) "credited" = true.
Proof.
  destruct (parsedMessages_to_js now toLocaleDateString l n)
    as (out' & Hp & _ & Ho).
  rewrite Hp. intros [= <- _] Hc Ht.
  destruct (outputs_In _ _ _ _ _ _ Ho Hc) as (r & k & Hr & Hk).
  apply filter_In in Hr as [_ Hr].
  apply parse_body in Hk as (Hb & _ & Hty).
  rewrite Hb. unfold keeps in Hr. apply orb_true_iff in Hr as [Hr|Hr]; [|exact Hr].
  apply includes_lower in Hr; [|reflexivity].
  rewrite Hr, Ht in Hty. discriminate.
Qed.

(** ** The amount pattern and the left-to-right scan agree *)

Lemma orelse_some (x y : option captures) : x <> None -> orelse x y = x.
Proof. destruct x; [reflexivity | congruence]. Qed.

(** *** Facts about the character classes, checked on all 256 code units *)

Ltac each_code_unit a := destruct a as [[] [] [] [] [] [] [] []].

Lemma ci_I (a : ascii) :
  Ascii.eqb (canonicalize a) (canonicalize "I") = AmountSpec.same_letter a "I".
Proof. each_code_unit a; reflexivity. Qed.

Lemma ci_N (a : ascii) :
  Ascii.eqb (canonicalize a) (canonicalize "N") = AmountSpec.same_letter a "N".
Proof. each_code_unit a; reflexivity. Qed.

Lemma ci_R (a : ascii) :
  Ascii.eqb (canonicalize a) (canonicalize "R") = AmountSpec.same_letter a "R".
Proof. each_code_unit a; reflexivity. Qed.

Lemma ci_s (a : ascii) :
  Ascii.eqb (canonicalize a) (canonicalize "s") = AmountSpec.same_letter a "s".
Proof. each_code_unit a; reflexivity. Qed.

Lemma letter_I_not_R (a : ascii) :
  AmountSpec.same_letter a "I" = true -> AmountSpec.same_letter a "R" = false.
Proof. each_code_unit a; try reflexivity; discriminate. Qed.

Lemma space_not_digit (a : ascii) : is_space a = true -> is_digit a = false.
Proof. each_code_unit a; try reflexivity; discriminate. Qed.

(** *** Greedy sub-patterns in front of a continuation that cannot fail *)

Section TotalContinuation.

Variable k : cont.
Hypothesis k_total : forall s c, k s c <> None.

Lemma star_digit (fuel : nat) (s : string) (c : captures) :
  length s <= fuel ->
  star_loop (run digit) k fuel s c = k (snd (AmountSpec.span is_digit s)) c.
Proof.
  revert s c; induction fuel as [|fuel IH]; intros s c Hlen.
  - destruct s; [reflexivity | simpl in Hlen; lia].
  - destruct s as [|a s]; [reflexivity|].
    cbn [star_loop run digit AmountSpec.span].
    destruct (is_digit a) eqn:Ha; [|reflexivity].
    assert (Hlt : (length s <? length (String a s))%nat = true)
      by (apply Nat.ltb_lt; simpl; lia).
    rewrite Hlt, IH by (simpl in Hlen; lia).
    destruct (AmountSpec.span is_digit s) as [t r]. cbn [snd].
    apply orelse_some, k_total.
Qed.

Lemma run_plus_digit (s : string) (c : captures) :
  run (Plus digit) s c k =
    match AmountSpec.span is_digit s with
    | (EmptyString, _) => None
    | (_, r) => k r c
    end.
Proof.
  destruct s as [|a s]; [reflexivity|].
  cbn [Plus run digit AmountSpec.span].
  destruct (is_digit a); [|reflexivity].
  rewrite star_digit by lia.
  destruct (AmountSpec.span is_digit s); reflexivity.
Qed.

Lemma run_opt_fraction (s : string) (c : captures) :
  run (Opt (Seq (lit ".") (Plus digit))) s c k
  = k (snd (AmountSpec.fraction s)) c.
Proof.
  change (run (Opt (Seq (lit ".") (Plus digit))) s c k)
    with (orelse (run (lit ".") s c (fun s' c' => run (Plus digit) s' c' k))
                 (k s c)).
  destruct s as [|a s]; [reflexivity|].
  cbn [run lit AmountSpec.fraction].
  destruct (Ascii.eqb a "."); [|reflexivity].
  rewrite run_plus_digit.
  destruct (AmountSpec.span is_digit s) as [[|d t] r]; [reflexivity|].
  cbn [snd]. apply orelse_some, k_total.
Qed.

Lemma run_group (s : string) (c : captures) (K : cont) :
  run (Seq (lit ",") (Repeat 3 digit)) s c K =
    match s with
    | String c0 (String d1 (String d2 (String d3 r))) =>
        if Ascii.eqb c0 "," && is_digit d1 && is_digit d2 && is_digit d3
        then K r c else None
    | _ => None
    end.
Proof.
  destruct s as [|c0 [|d1 [|d2 [|d3 r]]]]; cbn [run lit Repeat digit].
  - reflexivity.
  - destruct (Ascii.eqb c0 ","); reflexivity.
  - destruct (Ascii.eqb c0 ","), (is_digit d1); reflexivity.
  - destruct (Ascii.eqb c0 ","), (is_digit d1), (is_digit d2); reflexivity.
  - destruct (Ascii.eqb c0 ","), (is_digit d1), (is_digit d2), (is_digit d3);
      reflexivity.
Qed.

Lemma star_groups (fuel : nat) (s : string) (c : captures) :
  length s <= fuel ->
  star_loop (run (Seq (lit ",") (Repeat 3 digit))) k fuel s c
  = k (snd (AmountSpec.groups s)) c.
Proof.
  revert s c; induction fuel as [|fuel IH]; intros s c Hlen.
  - destruct s; [reflexivity | simpl in Hlen; lia].
  - cbn [star_loop]. rewrite run_group.
    destruct s as [|c0 [|d1 [|d2 [|d3 r]]]]; try reflexivity.
    cbn [AmountSpec.groups].
    destruct (Ascii.eqb c0 "," && is_digit d1 && is_digit d2 && is_digit d3);
      [|reflexivity].
    assert (Hlt : (length r
                   <? length (String c0 (String d1 (String d2 (String d3 r)))))%nat
                  = true)
      by (apply Nat.ltb_lt; simpl; lia).
    rewrite Hlt, IH by (simpl in Hlen; lia).
    destruct (AmountSpec.groups r) as [t r']. cbn [snd].
    apply orelse_some, k_total.
Qed.

End TotalContinuation.

(** *** The numeral *)

Lemma run_number (k : cont) (s : string) (c : captures) :
  (forall s' c', k s' c' <> None) ->
  run number s c k =
    match AmountSpec.numeral s with
    | Some (_, r) => k r c
    | None => None
    end.
Proof.
  intros Hk.
  set (frac := Opt (Seq (lit ".") (Plus digit))).
  set (grps := Star (Seq (lit ",") (Repeat 3 digit))).
  assert (Hfrac : forall s' c', run frac s' c' k <> None).
  { intros s' c'. unfold frac. rewrite run_opt_fraction by exact Hk.
    apply Hk. }
  assert (Hgrps : forall s' c',
             run grps s' c' (fun s2 c2 => run frac s2 c2 k)
             = run frac (snd (AmountSpec.groups s')) c' k).
  { intros s' c'. unfold grps. cbn [run].
    now rewrite star_groups by (exact Hfrac || lia). }
  change (run number s c k)
    with (run (Plus digit) s c
            (fun s1 c1 => run grps s1 c1 (fun s2 c2 => run frac s2 c2 k))).
  rewrite run_plus_digit by (intros; rewrite Hgrps; apply Hfrac).
  unfold AmountSpec.numeral.
  destruct (AmountSpec.span is_digit s) as [[|d t] r1]; [reflexivity|].
  rewrite Hgrps. unfold frac. rewrite run_opt_fraction by exact Hk.
  destruct (AmountSpec.groups r1) as [g r2]. cbn [snd].
  destruct (AmountSpec.fraction r2) as [f r3]. reflexivity.
Qed.

(** Each scanning function splits its input into the text taken and the
    rest. *)
Lemma span_app (p : ascii -> bool) (s t r : string) :
  AmountSpec.span p s = (t, r) -> s = t ++ r.
Proof.
  revert t r; induction s as [|a s IH]; simpl; intros t r H.
  - now injection H as <- <-.
  - destruct (p a).
    + destruct (AmountSpec.span p s) as [t' r'].
      injection H as <- <-. simpl. now rewrite (IH t' r' eq_refl).
    + now injection H as <- <-.
Qed.

Lemma groups_app (fuel : nat) (s t r : string) :
  length s <= fuel -> AmountSpec.groups s = (t, r) -> s = t ++ r.
Proof.
  revert s t r; induction fuel as [|fuel IH]; intros s t r Hlen H.
  - destruct s; [|simpl in Hlen; lia]. now injection H as <- <-.
  - destruct s as [|c0 [|d1 [|d2 [|d3 s]]]];
      try (now injection H as <- <-).
    cbn [AmountSpec.groups] in H.
    destruct (Ascii.eqb c0 "," && is_digit d1 && is_digit d2 && is_digit d3).
    + destruct (AmountSpec.groups s) as [t' r'] eqn:E.
      injection H as <- <-. simpl.
      rewrite (IH s t' r'); [reflexivity | simpl in Hlen; lia | exact E].
    + now injection H as <- <-.
Qed.

Lemma fraction_app (s t r : string) :
  AmountSpec.fraction s = (t, r) -> s = t ++ r.
Proof.
  destruct s as [|a s]; simpl; intros H.
  - now injection H as <- <-.
  - destruct (Ascii.eqb a ".").
    + destruct (AmountSpec.span is_digit s) as [[|d t'] r'] eqn:E.
      * now injection H as <- <-.
      * injection H as <- <-. cbn [append].
        now rewrite (span_app _ _ _ _ E).
    + now injection H as <- <-.
Qed.

Lemma append_assoc (a b c : string) : (a ++ b) ++ c = a ++ b ++ c.
Proof. induction a as [|x a IH]; simpl; [reflexivity | now rewrite IH]. Qed.

Lemma numeral_app (s t r : string) :
  AmountSpec.numeral s = Some (t, r) -> s = t ++ r.
Proof.
  unfold AmountSpec.numeral.
  destruct (AmountSpec.span is_digit s) as [[|d t1] r1] eqn:E1;
    [discriminate|].
  destruct (AmountSpec.groups r1) as [g r2] eqn:E2.
  destruct (AmountSpec.fraction r2) as [f r3] eqn:E3.
  intros [= <- <-].
  rewrite (span_app _ _ _ _ E1), (groups_app _ _ _ _ (le_n _) E2),
    (fraction_app _ _ _ E3).
  cbn [append]. now rewrite !append_assoc.
Qed.

Lemma length_app (t r : string) : length (t ++ r) = length t + length r.
Proof. induction t as [|a t IH]; simpl; [reflexivity | now rewrite IH]. Qed.

Lemma substring_prefix (t r : string) :
  substring 0 (length (t ++ r) - length r) (t ++ r) = t.
Proof.
  rewrite length_app. replace (length t + length r - length r) with (length t)
    by lia.
  induction t as [|a t IH]; simpl.
  - destruct r; reflexivity.
  - now rewrite IH.
Qed.

(** The capturing group around the numeral records the text of the
    numeral. *)
Lemma run_group_number (s : string) (c : captures) :
  run (Group 1 number) s c (fun _ c' => Some c') =
    match AmountSpec.numeral s with
    | Some (t, _) => Some (set_capture 1 t c)
    | None => None
    end.
Proof.
  cbn [run]. rewrite run_number by discriminate.
  destruct (AmountSpec.numeral s) as [[t r]|] eqn:E; [|reflexivity].
  rewrite (numeral_app _ _ _ E), substring_prefix. reflexivity.
Qed.

(** *** The whole pattern at one position *)

Lemma orelse_none_r (x : option captures) : orelse x None = x.
Proof. destruct x; reflexivity. Qed.

Lemma numeral_not_digit (a : ascii) (r : string) :
  is_digit a = false -> AmountSpec.numeral (String a r) = None.
Proof. intros H. unfold AmountSpec.numeral. simpl. now rewrite H. Qed.

Lemma run_space_number (s : string) (c : captures) :
  run (Seq (Opt space) (Group 1 number)) s c (fun _ c' => Some c') =
    match AmountSpec.numeral (AmountSpec.one_space s) with
    | Some (t, _) => Some (set_capture 1 t c)
    | None => None
    end.
Proof.
  change (run (Seq (Opt space) (Group 1 number)) s c (fun _ c' => Some c'))
    with (orelse
            (run space s c
               (fun s' c' => run (Group 1 number) s' c' (fun _ x => Some x)))
            (run (Group 1 number) s c (fun _ x => Some x))).
  remember (Group 1 number) as G eqn:HG.
  destruct s as [|a r]; cbn [run space AmountSpec.one_space]; subst G.
  - now rewrite run_group_number.
  - destruct (is_space a) eqn:Ha.
    + rewrite !run_group_number.
      rewrite (numeral_not_digit a r (space_not_digit a Ha)).
      apply orelse_none_r.
    + now rewrite run_group_number.
Qed.

Lemma run_currency (K : cont) (s : string) (c : captures) :
  (forall r, K (String "." r) c = None) ->
  run currency s c K =
    match AmountSpec.marker s with
    | Some r => K r c
    | None => None
    end.
Proof.
  intros Hdot.
  destruct s as [|a [|b r]]; cbn [run currency ci lit AmountSpec.marker].
  - reflexivity.
  - rewrite ci_I, ci_R.
    destruct (AmountSpec.same_letter a "I"), (AmountSpec.same_letter a "R");
      reflexivity.
  - rewrite ci_I, ci_R, ci_N, ci_s.
    destruct (AmountSpec.same_letter a "I") eqn:HI.
    + rewrite (letter_I_not_R a HI). cbn [andb].
      destruct (AmountSpec.same_letter b "N"); cbn [andb].
      * destruct r as [|d r']; [reflexivity|].
        rewrite ci_R.
        destruct (AmountSpec.same_letter d "R");
          [apply orelse_none_r | reflexivity].
      * destruct r; reflexivity.
    + cbn [andb orelse].
      destruct (AmountSpec.same_letter a "R"); cbn [andb].
      * destruct (AmountSpec.same_letter b "s").
        -- destruct r as [|d r']; [reflexivity|].
           destruct (Ascii.eqb d ".") eqn:Hd.
           ++ apply Ascii.eqb_eq in Hd; subst d.
              rewrite Hdot. apply orelse_none_r.
           ++ reflexivity.
        -- destruct r; reflexivity.
      * destruct r; reflexivity.
Qed.

Lemma run_amount_regex (s : string) (c : captures) :
  run amount_regex s c (fun _ c' => Some c') =
    match AmountSpec.amount_at s with
    | Some t => Some (set_capture 1 t c)
    | None => None
    end.
Proof.
  change (run amount_regex s c (fun _ c' => Some c'))
    with (run currency s c
            (fun s' c' =>
               run (Seq (Opt space) (Group 1 number)) s' c'
                 (fun _ x => Some x))).
  rewrite run_currency
    by (intros r; rewrite run_space_number; reflexivity).
  unfold AmountSpec.amount_at.
  destruct (AmountSpec.marker s) as [r|]; [|reflexivity].
  rewrite run_space_number.
  destruct (AmountSpec.numeral (AmountSpec.one_space r)) as [[t r']|];
    reflexivity.
Qed.

(** The pattern and the scan find the same amount in every body. *)
Lemma extractAmount_scan (body : string) :
  extractAmount body = AmountSpec.amount body.
Proof.
  unfold extractAmount.
  induction body as [|a s IH]; cbn [exec AmountSpec.amount];
    rewrite run_amount_regex;
    destruct (AmountSpec.amount_at _) as [t|]; try reflexivity.
  exact IH.
Qed.

(** A match sets group 1. *)
Lemma amount_regex_sets_group (body : string) (m : captures) :
  exec amount_regex body = Some m -> m 1 <> None.
Proof.
  induction body as [|a s IH]; cbn [exec]; rewrite run_amount_regex;
    destruct (AmountSpec.amount_at _) as [t|]; cbn [orelse];
    try discriminate; try (intros [= <-]; discriminate).
  exact IH.
Qed.

(** *** Bodies without a currency marker *)

Lemma marker_startsWith (s r : string) :
  AmountSpec.marker s = Some r ->
  startsWith (toLowerCase s) "inr" = true
  \/ startsWith (toLowerCase s) "rs" = true.
Proof.
  destruct s as [|a [|b t]]; try discriminate.
  unfold AmountSpec.marker, AmountSpec.same_letter.
  change (lower_char "I") with "i"%char. change (lower_char "N") with "n"%char.
  change (lower_char "R") with "r"%char. change (lower_char "s") with "s"%char.
  cbn [toLowerCase startsWith].
  destruct (Ascii.eqb (lower_char a) "i"), (Ascii.eqb (lower_char a) "r"),
    (Ascii.eqb (lower_char b) "n"), (Ascii.eqb (lower_char b) "s");
    cbn [andb]; destruct t as [|d t]; cbn [toLowerCase startsWith andb];
    try discriminate; auto;
    destruct (Ascii.eqb (lower_char d) "r"); try discriminate; auto.
Qed.

Lemma amount_without_marker (body : string) :
  includes (toLowerCase body) "inr" = false ->
  includes (toLowerCase body) "rs" = false ->
  AmountSpec.amount body = "N/A".
Proof.
  induction body as [|a s IH]; [reflexivity|].
  intros H1 H2.
  assert (Hm : AmountSpec.marker (String a s) = None).
  { destruct (AmountSpec.marker (String a s)) as [r|] eqn:E; [|reflexivity].
    destruct (marker_startsWith _ _ E) as [H|H];
      apply includes_startsWith in H; congruence. }
  cbn [toLowerCase includes] in H1, H2.
  apply orb_false_iff in H1 as [_ H1]. apply orb_false_iff in H2 as [_ H2].
  cbn [AmountSpec.amount]. unfold AmountSpec.amount_at. rewrite Hm.
  now apply IH.
Qed.

(** ** The claim about amount extraction *)

(** C4: the amount pattern finds, at the left-most position that has one, a
    currency marker INR or Rs (with an optional period) in any letter case,
    then at most one white-space character, then a numeral: digits, groups
    of a comma and three digits, and an optional period with digits; the
    amount is the text of the numeral, commas included. The body
    "Rs. 1,234.50 debited" gives "1,234.50"; a body without a currency
    marker gives "N/A"; the classified record carries that amount. *)
Theorem C4_amount_extraction (body : string) :
  extractAmount body = AmountSpec.amount body
  /\ extractAmount "Rs. 1,234.50 debited" = "1,234.50"
  /\ (includes (toLowerCase body) "inr" = false ->
      includes (toLowerCase body) "rs" = false ->
      extractAmount body = "N/A")
  /\ (forall now toLocaleDateString i a d n,
        exists c,
          App.parseMessageDetails now toLocaleDateString
            (RawMessage.to_js (RawMessage.mk i a body d)) n = Ok (c, S n)
          /\ SmsMessage.amount c = extractAmount body).
Proof.
  split; [apply extractAmount_scan|].
  split; [vm_compute; reflexivity|].
  split.
  - intros H1 H2. rewrite extractAmount_scan.
    now apply amount_without_marker.
  - intros now tl i a d n.
    destruct (parseMessageDetails_to_js now tl (RawMessage.mk i a body d) n)
      as (t & _ & Hr).
    eexists. split; [exact Hr | reflexivity].
Qed.

(** ** Instances *)

Lemma C2_filter_drops_witness :
  includes "Rs.500 Debited from a/c" "debited" = false
  /\ includes "Rs.500 Debited from a/c" "credited" = false
  /\ includes (toLowerCase "Rs.500 Debited from a/c") "debited" = true
  /\ App.parsedMessages (fun _ => 0%Z) (fun _ => "")
       [RawMessage.to_js
          (RawMessage.mk 7 (Some "BANK") "Rs.500 Debited from a/c" (Num 0))] 0
     = Ok ([], 0)
  /\ exists c,
       App.parseMessageDetails (fun _ => 0%Z) (fun _ => "")
         (RawMessage.to_js
            (RawMessage.mk 7 (Some "BANK") "Rs.500 Debited from a/c" (Num 0)))
         0 = Ok (c, 1)
       /\ SmsMessage.type c = debited.
Proof.
  destruct (C2_filter_drops (fun _ => 0%Z) (fun _ => "")
              [RawMessage.mk 7 (Some "BANK") "Rs.500 Debited from a/c" (Num 0)]
              0) as (out & n' & _ & _ & _ & H).
  destruct (H (RawMessage.mk 7 (Some "BANK") "Rs.500 Debited from a/c" (Num 0))
              eq_refl eq_refl) as (_ & Hdrop & Hdir).
  split; [reflexivity|]. split; [reflexivity|]. split; [reflexivity|].
  split; [exact Hdrop|]. exact (Hdir eq_refl).
Defined.

Lemma C4_amount_extraction_witness :
  includes (toLowerCase "Your OTP is 500, credited never") "inr" = false
  /\ includes (toLowerCase "Your OTP is 500, credited never") "rs" = false
  /\ extractAmount "Your OTP is 500, credited never" = "N/A".
Proof.
  split; [reflexivity|]. split; [reflexivity|].
  destruct (C4_amount_extraction "Your OTP is 500, credited never")
    as (_ & _ & H & _).
  exact (H eq_refl eq_refl).
Defined.

Lemma C5_category_order_witness :
  (includes (toLowerCase "Dining and GROCERY debited") "grocery" = true
   /\ includes (toLowerCase "Dining and GROCERY debited") "dining" = true
   /\ App.extractCategory "Dining and GROCERY debited" = Some "Grocery")
  /\ App.extractCategory "Shopping after dining" = Some "Dining"
  /\ App.extractCategory "SHOPPING debited" = Some "Shopping"
  /\ App.extractCategory "Rs.5 debited" = None.
Proof.
  split; [split; [reflexivity | split; [reflexivity|]] |].
  - destruct (C5_category_order "Dining and GROCERY debited") as (H & _).
    exact (H eq_refl).
  - split; [|split].
    + destruct (C5_category_order "Shopping after dining") as (_ & H & _).
      exact (H eq_refl eq_refl).
    + destruct (C5_category_order "SHOPPING debited") as (_ & _ & H & _).
      exact (H eq_refl eq_refl eq_refl).
    + destruct (C5_category_order "Rs.5 debited") as (_ & _ & _ & H).
      exact (H eq_refl eq_refl eq_refl).
Defined.

Lemma C6_view_witness :
  ViewSpec.shown (only debited) "bank"
    (SmsMessage.mk 1 "Rs.5 debited" "HDFC-Bank" "5" "" "" debited None) = true
  /\ In (SmsMessage.mk 1 "Rs.5 debited" "HDFC-Bank" "5" "" "" debited None)
        (App.filteredMessages
           [SmsMessage.mk 0 "Rs.9 credited" "HDFC-Bank" "9" "" "" credited None;
            SmsMessage.mk 1 "Rs.5 debited" "HDFC-Bank" "5" "" "" debited None]
           (only debited) "bank").
Proof.
  split; [reflexivity|].
  destruct (C6_view
              [SmsMessage.mk 0 "Rs.9 credited" "HDFC-Bank" "9" "" "" credited None;
               SmsMessage.mk 1 "Rs.5 debited" "HDFC-Bank" "5" "" "" debited None]
              (only debited) "bank") as (_ & _ & Hin & _).
  apply Hin. split; [right; left; reflexivity | reflexivity].
Defined.

Lemma C8_malformed_records_witness :
  RawMessage.address (RawMessage.mk 3 None "Rs.5 credited" NaN) = None
  /\ RawMessage.date_sent (RawMessage.mk 3 None "Rs.5 credited" NaN) = NaN
  /\ exists c,
       App.parseMessageDetails (fun _ => 0%Z) (fun _ => "")
         (RawMessage.to_js (RawMessage.mk 3 None "Rs.5 credited" NaN)) 0
       = Ok (c, 1)
       /\ SmsMessage.sender c = "Unknown"
       /\ SmsMessage.timeAgo c = "NaN day(s) ago"
       /\ SmsMessage.date c = "Invalid Date".
Proof.
  split; [reflexivity|]. split; [reflexivity|].
  destruct (C8_malformed_records (fun _ => 0%Z) (fun _ => "")
              (RawMessage.mk 3 None "Rs.5 credited" NaN) [] 0)
    as ((c & Hc & Hs & Hd) & _).
  exists c. split; [exact Hc|]. split; [exact (Hs eq_refl)|].
  exact (Hd eq_refl).
Defined.

(** ** Further instances of the embedded functions *)

Example amount_plain : extractAmount "Rs.500 debited from a/c" = "500".
Proof. vm_compute. reflexivity. Qed.

Example amount_lakh_grouping : extractAmount "paid INR5,00,000.75x" = "5".
Proof. vm_compute. reflexivity. Qed.

Example amount_two_spaces : extractAmount "Rs.  500 debited" = "N/A".
Proof. vm_compute. reflexivity. Qed.

Example amount_leftmost :
  extractAmount "inr 12,345,678.9. rs 4" = "12,345,678.9".
Proof. vm_compute. reflexivity. Qed.

Example amount_skips_failed_marker :
  extractAmount "Rs x, rS.7 and Rs 8" = "7".
Proof. vm_compute. reflexivity. Qed.

Example direction_fallback :
  exists c,
    App.parseMessageDetails (fun _ => 0%Z) (fun _ => "")
      (RawMessage.to_js (RawMessage.mk 1 (Some "X") "hello" (Num 0))) 0
    = Ok (c, 1)
    /\ SmsMessage.type c = credited.
Proof.
  destruct (parseMessageDetails_to_js (fun _ => 0%Z) (fun _ => "")
              (RawMessage.mk 1 (Some "X") "hello" (Num 0)) 0) as (t & _ & H).
  eexists. split; [exact H | reflexivity].
Qed.

Example age_hours :
  App.calculateTimeAgo (fun _ => 7200000%Z) (Num 0) 0
  = Ok ("2 hour(s) ago", 1).
Proof. vm_compute. reflexivity. Qed.

Example age_days :
  App.calculateTimeAgo (fun _ => 864000000%Z) (Num 0) 0
  = Ok ("10 day(s) ago", 1).
Proof. vm_compute. reflexivity. Qed.

Example age_future :
  App.calculateTimeAgo (fun _ => 0%Z) (Num 1) 0
  = Ok ("-1 minute(s) ago", 1).
Proof. vm_compute. reflexivity. Qed.

(** A record without a body is outside the data model: reading a property
    of its body throws, in the retention test already. *)
Example missing_body_throws :
  App.parsedMessages (fun _ => 0%Z) (fun _ => "")
    [Sms.mk 1 (Some "BANK") None (Num 0)] 0 = Throw TypeError.
Proof. reflexivity. Qed.

(** A successful fetch replaces the list of messages by the classified
    batch. *)
Lemma fetch_success_replaces (now : nat -> Z) (toLocaleDateString : Z -> string)
    (st : App.AppState) (count : Z) (l : list RawMessage.t) (n : nat) :
  exists out n',
    App.parsedMessages now toLocaleDateString (map RawMessage.to_js l) n
      = Ok (out, n')
    /\ App.fetchSmsMessages now toLocaleDateString
         (App.Success count (map RawMessage.to_js l)) st n
       = Ok ({| App.messages := out; App.loading := false;
                App.console := App.console st |}, n').
Proof.
  destruct (parsedMessages_to_js now toLocaleDateString l n)
    as (out & Hp & _).
  exists out, (n + List.length (filter keeps l)). split; [exact Hp|].
  unfold App.fetchSmsMessages, bind. rewrite Hp. reflexivity.
Qed.

(** * Further properties of the code *)

(** ** The view: [filteredMessages] *)

Lemma filter_all_true {A} (p : A -> bool) (l : list A) :
  (forall x, In x l -> p x = true) -> filter p l = l.
Proof.
  induction l as [|x l IH]; simpl; intros H; [reflexivity|].
  rewrite (H x (or_introl eq_refl)), IH; [reflexivity|].
  intros y Hy. apply H. now right.
Qed.

Lemma filter_narrow {A} (p q : A -> bool) (l : list A) :
  (forall x, q x = true -> p x = true) ->
  filter q (filter p l) = filter q l.
Proof.
  intros H. rewrite filter_filter. apply filter_ext. intros x.
  destruct (q x) eqn:E; [now rewrite (H x E) | apply andb_false_r].
Qed.



(** X1: with the filter "all" and an empty search box the view is the
    whole list of messages, unchanged. *)
Theorem view_all_empty (msgs : list SmsMessage.t) :
  App.filteredMessages msgs all "" = msgs.
Proof.
  rewrite filteredMessages_shown. apply filter_all_true. intros m _.
  unfold ViewSpec.shown, ViewSpec.search_ok. simpl.
  now rewrite includes_empty.
Qed.

(** X2: viewing a view again with the same filter and query changes
    nothing. *)
Theorem view_idempotent (msgs : list SmsMessage.t) (f : view_filter)
    (q : string) :
  App.filteredMessages (App.filteredMessages msgs f q) f q
  = App.filteredMessages msgs f q.
Proof.
  rewrite !filteredMessages_shown. apply filter_narrow. auto.
Qed.

(** X3: the two passes of the view commute: filtering by the search text
    first and by the direction second gives the same list as the code's
    order, direction first. *)
Theorem view_filters_commute (msgs : list SmsMessage.t) (f : view_filter)
    (q : string) :
  App.filteredMessages msgs f q
  = filter (ViewSpec.direction_ok f) (filter (ViewSpec.search_ok q) msgs).
Proof.
  rewrite filteredMessages_shown, filter_filter. apply filter_ext.
  intros m. apply andb_comm.
Qed.

(** X4: for every query, the debited view and the credited view split the
    "all" view: a message of the "all" view is in exactly the view of its
    own direction, and the two views together have as many messages as the
    "all" view. *)
Theorem view_partition (msgs : list SmsMessage.t) (q : string) :
  List.length (App.filteredMessages msgs (only debited) q)
  + List.length (App.filteredMessages msgs (only credited) q)
  = List.length (App.filteredMessages msgs all q)
  /\ forall m d,
       In m (App.filteredMessages msgs (only d) q) <->
       In m (App.filteredMessages msgs all q) /\ SmsMessage.type m = d.
Proof.
  rewrite !filteredMessages_shown. split.
  - induction msgs as [|m msgs IH]; [reflexivity|].
    cbn [filter].
    change (ViewSpec.shown (only debited) q m)
      with (txn_type_eqb (SmsMessage.type m) debited && ViewSpec.search_ok q m).
    change (ViewSpec.shown (only credited) q m)
      with (txn_type_eqb (SmsMessage.type m) credited
            && ViewSpec.search_ok q m).
    change (ViewSpec.shown all q m) with (true && ViewSpec.search_ok q m).
    destruct (SmsMessage.type m), (ViewSpec.search_ok q m);
      cbn [txn_type_eqb andb List.length]; lia.
  - intros m d. rewrite !filteredMessages_shown, !filter_In.
    change (ViewSpec.shown (only d) q m)
      with (txn_type_eqb (SmsMessage.type m) d && ViewSpec.search_ok q m).
    change (ViewSpec.shown all q m) with (ViewSpec.search_ok q m).
    pose proof (txn_type_eqb_eq (SmsMessage.type m) d) as Hd.
    destruct (txn_type_eqb (SmsMessage.type m) d); cbn [andb].
    + assert (E : SmsMessage.type m = d) by now apply Hd.
      tauto.
    + split; [intros [_ H]; discriminate|].
      intros [_ E]. apply Hd in E. discriminate.
Qed.

(** X5: the search ignores the letter case of the query: two queries with
    the same lower-cased text give the same view. *)
Theorem view_query_case (msgs : list SmsMessage.t) (f : view_filter)
    (q1 q2 : string) :
  toLowerCase q1 = toLowerCase q2 ->
  App.filteredMessages msgs f q1 = App.filteredMessages msgs f q2.
Proof.
  intros H. rewrite !filteredMessages_shown. apply filter_ext. intros m.
  unfold ViewSpec.shown, ViewSpec.search_ok. now rewrite H.
Qed.


Lemma view_query_case_witness :
  toLowerCase "HDFC" = toLowerCase "hdfc"
  /\ App.filteredMessages
       [SmsMessage.mk 1 "Rs.5 debited" "HDFC-Bank" "5" "" "" debited None]
       all "HDFC"
     = App.filteredMessages
         [SmsMessage.mk 1 "Rs.5 debited" "HDFC-Bank" "5" "" "" debited None]
         all "hdfc".
Proof.
  split; [reflexivity|].
  apply (view_query_case
           [SmsMessage.mk 1 "Rs.5 debited" "HDFC-Bank" "5" "" "" debited None]
           all "HDFC" "hdfc").
  reflexivity.
Defined.

(** ** The batch: [parsedMessages] on arbitrary parsed arrays *)

Section Batch.

Variable now : nat -> Z.
Variable toLocaleDateString : Z -> string.

Local Abbreviation parseMessageDetails :=
  (App.parseMessageDetails now toLocaleDateString).
Local Abbreviation parsedMessages :=
  (App.parsedMessages now toLocaleDateString).
Local Abbreviation outputs := (outputs now toLocaleDateString).
Local Abbreviation to_js := RawMessage.to_js.

(** An array whose elements all have a body is the image of a list of
    records of the data model. *)
Lemma bodies_present (l : list Sms.t) :
  Forall (fun m => Sms.body m <> None) l -> exists l', l = map to_js l'.
Proof.
  induction 1 as [|m l Hm _ [l' ->]].
  - now exists [].
  - destruct m as [i a [b|] d]; [|now elim Hm].
    now exists (RawMessage.mk i a b d :: l').
Qed.

Lemma filterM_retained_throws (l : list Sms.t) (n : nat) :
  Exists (fun m => Sms.body m = None) l ->
  filterM App.retained l n = Throw TypeError.
Proof.
  induction l as [|m l IH]; intros H; [now inversion H|].
  cbn [filterM]. unfold bind at 1.
  destruct m as [i a [b|] d].
  - cbn. unfold bind at 1. rewrite IH; [reflexivity|].
    inversion H as [? ? Hm|]; subst; [discriminate Hm | assumption].
  - reflexivity.
Qed.

Lemma mapM_app {A B} (f : A -> M B) (l1 l2 : list A) (n n1 n2 : nat)
    (o1 o2 : list B) :
  mapM f l1 n = Ok (o1, n1) -> mapM f l2 n1 = Ok (o2, n2) ->
  mapM f (l1 ++ l2)%list n = Ok ((o1 ++ o2)%list, n2).
Proof.
  revert n o1; induction l1 as [|x l1 IH]; intros n o1 H1 H2.
  - injection H1 as <- <-. exact H2.
  - cbn [mapM app] in *. unfold bind at 1 in H1. unfold bind at 1.
    destruct (f x n) as [[y k]|e]; [|discriminate].
    unfold bind at 1 in H1. unfold bind at 1.
    destruct (mapM f l1 k) as [[r k']|e] eqn:E; [|discriminate].
    injection H1 as <- <-.
    now rewrite (IH k r E H2).
Qed.

Lemma outputs_ids (kept : list RawMessage.t) (out : list SmsMessage.t)
    (n : nat) :
  outputs n kept out ->
  map SmsMessage.id out = map RawMessage._id kept
  /\ map SmsMessage.body out = map RawMessage.body kept.
Proof.
  revert n out; induction kept as [|r kept IH]; intros n [|c out] H;
    simpl in H; try contradiction; [now split|].
  destruct H as [Hp H]. destruct (IH _ _ H) as [E1 E2].
  destruct (parseMessageDetails_to_js now toLocaleDateString r n)
    as (t & _ & Hr).
  rewrite Hr in Hp. injection Hp as <-. simpl. now rewrite E1, E2.
Qed.

(** The retention test keeps distinct ids distinct. *)
Lemma retained_ids_distinct (l : list RawMessage.t) :
  NoDup (map RawMessage._id l) ->
  NoDup (map RawMessage._id (filter keeps l)).
Proof.
  induction l as [|r l IH]; cbn [map filter]; intros H; [constructor|].
  apply NoDup_cons_iff in H as [Hr Hl].
  destruct (keeps r); [|now apply IH].
  cbn [map]. apply NoDup_cons_iff. split; [|now apply IH].
  intros Hin. apply Hr.
  apply in_map_iff in Hin as (r' & Hid & Hin).
  apply filter_In in Hin as [Hin _].
  apply in_map_iff. now exists r'.
Qed.

(** X7: a parsed array is classified without an exception exactly when
    every element has a body: one element without a body, anywhere in the
    array, makes the whole batch throw a TypeError, and then no message is
    classified. *)
Theorem batch_throws_iff (l : list Sms.t) (n : nat) :
  (Exists (fun m => Sms.body m = None) l ->
     parsedMessages l n = Throw TypeError)
  /\ (Forall (fun m => Sms.body m <> None) l ->
        exists out, parsedMessages l n = Ok (out, n + List.length out)).
Proof.
  split.
  - intros H. unfold App.parsedMessages, bind.
    now rewrite filterM_retained_throws.
  - intros H. destruct (bodies_present l H) as [l' ->].
    destruct (parsedMessages_to_js now toLocaleDateString l' n)
      as (out & Hp & Hl & _).
    exists out. now rewrite Hl.
Qed.

(** X8: classifying two arrays one after the other and joining the
    results is classifying the joined array: the second array starts reading
    the clock where the first stopped. *)
Theorem batch_app (l1 l2 : list RawMessage.t) (n : nat) :
  exists out1 n1 out2 n2,
    parsedMessages (map to_js l1) n = Ok (out1, n1)
    /\ parsedMessages (map to_js l2) n1 = Ok (out2, n2)
    /\ parsedMessages (map to_js (l1 ++ l2)%list) n
       = Ok ((out1 ++ out2)%list, n2).
Proof.
  destruct (mapM_parse now toLocaleDateString (filter keeps l1) n)
    as (out1 & H1 & _).
  destruct (mapM_parse now toLocaleDateString (filter keeps l2)
              (n + List.length (filter keeps l1))) as (out2 & H2 & _).
  exists out1, (n + List.length (filter keeps l1)), out2,
    (n + List.length (filter keeps l1) + List.length (filter keeps l2)).
  unfold App.parsedMessages, bind.
  rewrite !filterM_retained, filter_app, map_app.
  split; [exact H1|]. split; [exact H2|].
  exact (mapM_app _ _ _ _ _ _ _ _ H1 H2).
Qed.

(** X9: the classified records carry the ids and bodies of the retained
    input records, in order; when the ids of the input are pairwise
    distinct, so are the ids of the output (the keys of the list view). *)
Theorem batch_ids (l : list RawMessage.t) (n : nat) :
  exists out n',
    parsedMessages (map to_js l) n = Ok (out, n')
    /\ map SmsMessage.id out = map RawMessage._id (filter keeps l)
    /\ map SmsMessage.body out = map RawMessage.body (filter keeps l)
    /\ (NoDup (map RawMessage._id l) -> NoDup (map SmsMessage.id out)).
Proof.
  destruct (parsedMessages_to_js now toLocaleDateString l n)
    as (out & Hp & _ & Ho).
  destruct (outputs_ids _ _ _ Ho) as [E1 E2].
  exists out, (n + List.length (filter keeps l)).
  split; [exact Hp|]. split; [exact E1|]. split; [exact E2|].
  intros H. rewrite E1. now apply retained_ids_distinct.
Qed.

(** X10: no classified record has an empty sender: an address that is
    missing or is the empty text becomes "Unknown", any other address is
    copied. *)
Theorem sender_never_empty (r : RawMessage.t) (n : nat) :
  exists c,
    parseMessageDetails (to_js r) n = Ok (c, S n)
    /\ SmsMessage.sender c <> ""
    /\ (RawMessage.address r = Some "" -> SmsMessage.sender c = "Unknown")
    /\ (forall a, RawMessage.address r = Some a -> a <> "" ->
                  SmsMessage.sender c = a).
Proof.
  destruct (parseMessageDetails_to_js now toLocaleDateString r n)
    as (t & _ & Hr).
  eexists. split; [exact Hr|]. cbn [SmsMessage.sender].
  destruct (RawMessage.address r) as [[|x a]|]; cbn.
  - repeat split; try discriminate. intros a [= <-] H. now elim H.
  - repeat split; try discriminate. now intros a' [= <-] _.
  - repeat split; discriminate.
Qed.

End Batch.

(** ** The age text: [calculateTimeAgo] *)

Section Age.

Variable now : nat -> Z.

Local Abbreviation calculateTimeAgo := (App.calculateTimeAgo now).



End Age.

(** ** The extracted amount *)

Lemma all_chars_app (p : ascii -> bool) (a b : string) :
  Shape.all_chars p (a ++ b) = Shape.all_chars p a && Shape.all_chars p b.
Proof.
  induction a as [|x a IH]; simpl; [reflexivity|].
  now rewrite IH, andb_assoc.
Qed.

Lemma all_chars_weaken (p q : ascii -> bool) (s : string) :
  (forall a, p a = true -> q a = true) ->
  Shape.all_chars p s = true -> Shape.all_chars q s = true.
Proof.
  intros H. induction s as [|a s IH]; simpl; [reflexivity|].
  rewrite !andb_true_iff. intros [Ha Hs]. auto.
Qed.

Lemma last_char_app (p : ascii -> bool) (a b : string) :
  b <> "" -> Shape.last_char p (a ++ b) = Shape.last_char p b.
Proof.
  intros Hb. induction a as [|x a IH]; [reflexivity|].
  cbn [append Shape.last_char]. rewrite IH.
  destruct (a ++ b) eqn:E; [|reflexivity].
  destruct a; [simpl in E; congruence | discriminate].
Qed.

Lemma append_empty_r (a : string) : a ++ "" = a.
Proof. induction a as [|x a IH]; simpl; [reflexivity | now rewrite IH]. Qed.

Lemma all_chars_ends (p : ascii -> bool) (s : string) :
  Shape.all_chars p s = true -> s <> "" ->
  Shape.first_char p s = true /\ Shape.last_char p s = true.
Proof.
  induction s as [|a s IH]; [congruence|].
  simpl. rewrite andb_true_iff. intros [Ha Hs] _. split; [exact Ha|].
  destruct s as [|b s]; [exact Ha|].
  apply IH; [exact Hs | discriminate].
Qed.

Lemma span_all (p : ascii -> bool) (s t r : string) :
  AmountSpec.span p s = (t, r) -> Shape.all_chars p t = true.
Proof.
  revert t r; induction s as [|a s IH]; simpl; intros t r H.
  - now injection H as <- <-.
  - destruct (p a) eqn:Ha.
    + destruct (AmountSpec.span p s) as [t' r'].
      injection H as <- <-. simpl. now rewrite Ha, (IH t' r' eq_refl).
    + now injection H as <- <-.
Qed.

Lemma digit_amount_char (a : ascii) :
  is_digit a = true -> Shape.amount_char a = true.
Proof. unfold Shape.amount_char. now intros ->. Qed.

Lemma groups_shape (fuel : nat) (s t r : string) :
  length s <= fuel -> AmountSpec.groups s = (t, r) ->
  Shape.all_chars Shape.amount_char t = true
  /\ (t = "" \/ Shape.last_char is_digit t = true).
Proof.
  revert s t r; induction fuel as [|fuel IH]; intros s t r Hlen H.
  - destruct s; [|simpl in Hlen; lia]. injection H as <- <-. auto.
  - destruct s as [|c0 [|d1 [|d2 [|d3 s]]]];
      try (injection H as <- <-; auto).
    cbn [AmountSpec.groups] in H.
    destruct (Ascii.eqb c0 ",") eqn:E0, (is_digit d1) eqn:E1,
      (is_digit d2) eqn:E2, (is_digit d3) eqn:E3; cbn [andb] in H;
      try (injection H as <- <-; auto).
    destruct (AmountSpec.groups s) as [t' r'] eqn:E.
    injection H as <- <-.
    destruct (IH s t' r') as [Ha Hl]; [simpl in Hlen; lia | exact E |].
    split.
    + cbn [Shape.all_chars]. unfold Shape.amount_char at 1 2 3 4.
      now rewrite E0, E1, E2, E3, Ha, !orb_true_r.
    + right. destruct Hl as [-> | Hl]; [simpl; exact E3|].
      change (String c0 (String d1 (String d2 (String d3 t'))))
        with (String c0 (String d1 (String d2 (String d3 ""))) ++ t').
      rewrite last_char_app; [exact Hl|].
      intros ->. discriminate Hl.
Qed.

Lemma fraction_shape (s t r : string) :
  AmountSpec.fraction s = (t, r) ->
  Shape.all_chars Shape.amount_char t = true
  /\ (t = "" \/ Shape.last_char is_digit t = true).
Proof.
  destruct s as [|a s]; simpl; intros H.
  - injection H as <- <-. auto.
  - destruct (Ascii.eqb a ".") eqn:Ea.
    + destruct (AmountSpec.span is_digit s) as [[|d t'] r'] eqn:E.
      * injection H as <- <-. auto.
      * injection H as <- <-.
        pose proof (span_all _ _ _ _ E) as Hd.
        split.
        -- cbn [Shape.all_chars]. unfold Shape.amount_char at 1.
           rewrite Ea, orb_true_r.
           exact (all_chars_weaken _ _ _ digit_amount_char Hd).
        -- right.
           change (String a (String d t')) with (String a "" ++ String d t').
           rewrite last_char_app by discriminate.
           now apply all_chars_ends.
    + injection H as <- <-. auto.
Qed.

Lemma numeral_shape (s t r : string) :
  AmountSpec.numeral s = Some (t, r) ->
  Shape.all_chars Shape.amount_char t = true
  /\ Shape.first_char is_digit t = true
  /\ Shape.last_char is_digit t = true.
Proof.
  unfold AmountSpec.numeral.
  destruct (AmountSpec.span is_digit s) as [[|d t1] r1] eqn:E1;
    [discriminate|].
  destruct (AmountSpec.groups r1) as [g r2] eqn:E2.
  destruct (AmountSpec.fraction r2) as [f r3] eqn:E3.
  intros [= <- <-].
  pose proof (span_all _ _ _ _ E1) as Hd.
  destruct (all_chars_ends _ _ Hd ltac:(discriminate)) as [Hf Hl].
  destruct (groups_shape _ _ _ _ (le_n _) E2) as [Hg Hgl].
  destruct (fraction_shape _ _ _ E3) as [Hfr Hfl].
  change (String d (t1 ++ g ++ f)) with (String d t1 ++ g ++ f).
  split; [|split].
  - rewrite !all_chars_app, Hg, Hfr.
    now rewrite (all_chars_weaken _ _ _ digit_amount_char Hd).
  - exact Hf.
  - destruct Hfl as [-> | Hfl].
    + rewrite append_empty_r. destruct Hgl as [-> | Hgl].
      * now rewrite append_empty_r.
      * rewrite last_char_app; [exact Hgl|]. intros ->. discriminate Hgl.
    + rewrite <- append_assoc.
      rewrite last_char_app; [exact Hfl|]. intros ->. discriminate Hfl.
Qed.

Lemma marker_app (s r : string) :
  AmountSpec.marker s = Some r -> exists m, s = m ++ r.
Proof.
  destruct s as [|a [|b [|c r']]]; try discriminate; unfold AmountSpec.marker.
  - destruct (_ && _); [|discriminate].
    intros [= <-]. now exists (String a (String b "")).
  - destruct (_ && _ && _).
    + intros [= <-]. now exists (String a (String b (String c ""))).
    + destruct (_ && _); [|discriminate].
      destruct (Ascii.eqb c "."); intros [= <-].
      * now exists (String a (String b (String c ""))).
      * now exists (String a (String b "")).
Qed.

Lemma one_space_app (s : string) : exists w, s = w ++ AmountSpec.one_space s.
Proof.
  destruct s as [|a s]; [now exists ""|]. simpl.
  destruct (is_space a); [now exists (String a "") | now exists ""].
Qed.

Lemma amount_at_shape (s t : string) :
  AmountSpec.amount_at s = Some t ->
  includes s t = true
  /\ Shape.all_chars Shape.amount_char t = true
  /\ Shape.first_char is_digit t = true
  /\ Shape.last_char is_digit t = true.
Proof.
  unfold AmountSpec.amount_at.
  destruct (AmountSpec.marker s) as [r|] eqn:Em; [|discriminate].
  destruct (AmountSpec.numeral (AmountSpec.one_space r)) as [[t' r']|] eqn:En;
    [|discriminate].
  intros [= <-]. split; [|exact (numeral_shape _ _ _ En)].
  destruct (marker_app _ _ Em) as [m ->].
  destruct (one_space_app r) as [w Hw].
  apply numeral_app in En. rewrite En in Hw. rewrite Hw.
  apply includes_iff. exists (m ++ w), r'. now rewrite !append_assoc.
Qed.

Lemma amount_shape (body : string) :
  AmountSpec.amount body = "N/A"
  \/ (includes body (AmountSpec.amount body) = true
      /\ Shape.all_chars Shape.amount_char (AmountSpec.amount body) = true
      /\ Shape.first_char is_digit (AmountSpec.amount body) = true
      /\ Shape.last_char is_digit (AmountSpec.amount body) = true).
Proof.
  induction body as [|a s IH]; cbn [AmountSpec.amount].
  - destruct (AmountSpec.amount_at "") as [t|] eqn:E; [|now left].
    right. exact (amount_at_shape _ _ E).
  - destruct (AmountSpec.amount_at (String a s)) as [t|] eqn:E.
    + right. exact (amount_at_shape _ _ E).
    + destruct IH as [IH | (Hi & IH)]; [now left | right].
      split; [|exact IH]. cbn [includes]. rewrite Hi. apply orb_true_r.
Qed.

(** X13: an extracted amount is either the sentinel "N/A" or a piece of
    the body that is made of digits, commas and periods only and that
    starts and ends with a digit. *)
Theorem amount_format (body : string) :
  extractAmount body = "N/A"
  \/ (includes body (extractAmount body) = true
      /\ Shape.all_chars Shape.amount_char (extractAmount body) = true
      /\ Shape.first_char is_digit (extractAmount body) = true
      /\ Shape.last_char is_digit (extractAmount body) = true).
Proof. rewrite extractAmount_scan. apply amount_shape. Qed.

Lemma includes_lower_both (s w : string) :
  includes s w = true -> includes (toLowerCase s) (toLowerCase w) = true.
Proof.
  intros H. apply includes_iff in H as (pre & post & ->).
  apply includes_iff. exists (toLowerCase pre), (toLowerCase post).
  now rewrite !toLowerCase_app.
Qed.

(** X14: searching for the amount of a classified message finds the
    message: unless the amount is "N/A", the message is in the view of any
    list that holds it, with the filter "all" and its amount as the query. *)
Theorem search_by_amount (now : nat -> Z) (toLocaleDateString : Z -> string)
    (r : RawMessage.t) (n : nat) :
  exists c,
    App.parseMessageDetails now toLocaleDateString (RawMessage.to_js r) n
      = Ok (c, S n)
    /\ (SmsMessage.amount c <> "N/A" ->
        forall msgs, In c msgs ->
          In c (App.filteredMessages msgs all (SmsMessage.amount c))).
Proof.
  destruct (parseMessageDetails_to_js now toLocaleDateString r n)
    as (t & _ & Hr).
  eexists. split; [exact Hr|]. cbn [SmsMessage.amount].
  intros Hna msgs Hin. rewrite filteredMessages_shown.
  apply filter_In. split; [exact Hin|].
  rewrite extractAmount_scan in *.
  destruct (amount_shape (RawMessage.body r)) as [E | (Hi & _)];
    [contradiction|].
  unfold ViewSpec.shown, ViewSpec.search_ok. cbn.
  now rewrite (includes_lower_both _ _ Hi).
Qed.

(** *** Letter case of the body *)

Lemma lower_keeps_digit (a : ascii) : is_digit (lower_char a) = is_digit a.
Proof. each_code_unit a; reflexivity. Qed.

Lemma lower_keeps_space (a : ascii) : is_space (lower_char a) = is_space a.
Proof. each_code_unit a; reflexivity. Qed.

Lemma lower_keeps_period (a : ascii) :
  Ascii.eqb (lower_char a) "." = Ascii.eqb a ".".
Proof. each_code_unit a; reflexivity. Qed.

Lemma lower_keeps_comma (a : ascii) :
  Ascii.eqb (lower_char a) "," = Ascii.eqb a ",".
Proof. each_code_unit a; reflexivity. Qed.

Lemma lower_fixes_digit (a : ascii) : is_digit a = true -> lower_char a = a.
Proof. each_code_unit a; try reflexivity; discriminate. Qed.

Lemma lower_fixes_comma (a : ascii) :
  Ascii.eqb a "," = true -> lower_char a = a.
Proof. intros H. apply Ascii.eqb_eq in H. now subst a. Qed.

Lemma lower_fixes_period (a : ascii) :
  Ascii.eqb a "." = true -> lower_char a = a.
Proof. intros H. apply Ascii.eqb_eq in H. now subst a. Qed.

Lemma same_letter_lower (a x : ascii) :
  AmountSpec.same_letter (lower_char a) x = AmountSpec.same_letter a x.
Proof. unfold AmountSpec.same_letter. now rewrite lower_char_idem. Qed.

Lemma span_lower (s : string) :
  AmountSpec.span is_digit (toLowerCase s)
  = (fst (AmountSpec.span is_digit s),
     toLowerCase (snd (AmountSpec.span is_digit s))).
Proof.
  induction s as [|a s IH]; [reflexivity|].
  cbn [toLowerCase AmountSpec.span]. rewrite lower_keeps_digit.
  destruct (is_digit a) eqn:Ha; [|reflexivity].
  rewrite IH, (lower_fixes_digit a Ha).
  destruct (AmountSpec.span is_digit s). reflexivity.
Qed.

Lemma groups_lower (fuel : nat) (s : string) :
  length s <= fuel ->
  AmountSpec.groups (toLowerCase s)
  = (fst (AmountSpec.groups s), toLowerCase (snd (AmountSpec.groups s))).
Proof.
  revert s; induction fuel as [|fuel IH]; intros s Hlen.
  - destruct s; [reflexivity | simpl in Hlen; lia].
  - destruct s as [|c0 [|d1 [|d2 [|d3 s]]]]; try reflexivity.
    cbn [toLowerCase AmountSpec.groups].
    rewrite lower_keeps_comma, !lower_keeps_digit.
    destruct (Ascii.eqb c0 ",") eqn:E0, (is_digit d1) eqn:E1,
      (is_digit d2) eqn:E2, (is_digit d3) eqn:E3; cbn [andb];
      try reflexivity.
    rewrite IH by (simpl in Hlen; lia).
    rewrite (lower_fixes_comma c0 E0), (lower_fixes_digit d1 E1),
      (lower_fixes_digit d2 E2), (lower_fixes_digit d3 E3).
    destruct (AmountSpec.groups s). reflexivity.
Qed.

Lemma fraction_lower (s : string) :
  AmountSpec.fraction (toLowerCase s)
  = (fst (AmountSpec.fraction s), toLowerCase (snd (AmountSpec.fraction s))).
Proof.
  destruct s as [|a s]; [reflexivity|].
  cbn [toLowerCase AmountSpec.fraction]. rewrite lower_keeps_period.
  destruct (Ascii.eqb a ".") eqn:Ea; [|reflexivity].
  rewrite span_lower.
  destruct (AmountSpec.span is_digit s) as [[|d t] r];
    cbn [fst snd toLowerCase]; now rewrite (lower_fixes_period a Ea).
Qed.

Lemma numeral_lower (s : string) :
  AmountSpec.numeral (toLowerCase s)
  = match AmountSpec.numeral s with
    | Some (t, r) => Some (t, toLowerCase r)
    | None => None
    end.
Proof.
  unfold AmountSpec.numeral. rewrite span_lower.
  destruct (AmountSpec.span is_digit s) as [[|d t1] r1]; [reflexivity|].
  cbn [fst snd]. rewrite (groups_lower _ _ (le_n _)).
  destruct (AmountSpec.groups r1) as [g r2]. cbn [fst snd].
  rewrite fraction_lower.
  destruct (AmountSpec.fraction r2) as [f r3]. reflexivity.
Qed.

Lemma marker_lower (s : string) :
  AmountSpec.marker (toLowerCase s)
  = match AmountSpec.marker s with
    | Some r => Some (toLowerCase r)
    | None => None
    end.
Proof.
  destruct s as [|a [|b [|c r]]]; try reflexivity;
    cbn [toLowerCase AmountSpec.marker];
    rewrite ?same_letter_lower, ?lower_keeps_period.
  - destruct (_ && _); reflexivity.
  - destruct (_ && _ && _); [reflexivity|].
    destruct (_ && _); [|reflexivity].
    destruct (Ascii.eqb c "."); reflexivity.
Qed.

Lemma one_space_lower (s : string) :
  AmountSpec.one_space (toLowerCase s) = toLowerCase (AmountSpec.one_space s).
Proof.
  destruct s as [|a s]; [reflexivity|].
  cbn [toLowerCase AmountSpec.one_space]. rewrite lower_keeps_space.
  destruct (is_space a); reflexivity.
Qed.

Lemma amount_at_lower (s : string) :
  AmountSpec.amount_at (toLowerCase s) = AmountSpec.amount_at s.
Proof.
  unfold AmountSpec.amount_at. rewrite marker_lower.
  destruct (AmountSpec.marker s) as [r|]; [|reflexivity].
  rewrite one_space_lower, numeral_lower.
  destruct (AmountSpec.numeral (AmountSpec.one_space r)) as [[t r']|];
    reflexivity.
Qed.

(** X15: the extracted amount does not depend on the letter case of the
    body: the lower-cased body gives the same amount. *)
Theorem amount_ignores_case (body : string) :
  extractAmount (toLowerCase body) = extractAmount body.
Proof.
  rewrite !extractAmount_scan.
  induction body as [|a s IH]; [reflexivity|].
  change (toLowerCase (String a s))
    with (String (lower_char a) (toLowerCase s)).
  cbn [AmountSpec.amount].
  change (String (lower_char a) (toLowerCase s))
    with (toLowerCase (String a s)).
  now rewrite amount_at_lower, IH.
Qed.

(** ** The success callback of the fetch *)

(** X17: when the source delivers an array, the fetch either replaces the
    list of messages by the classification of that array, whatever the list
    was before (loading cleared, console untouched), or, when some element
    has no body, throws the TypeError of the classification. *)
Theorem fetch_success_outcome (now : nat -> Z)
    (toLocaleDateString : Z -> string) (st : App.AppState) (count : Z)
    (l : list Sms.t) (n : nat) :
  (Forall (fun m => Sms.body m <> None) l ->
     exists out n',
       App.parsedMessages now toLocaleDateString l n = Ok (out, n')
       /\ App.fetchSmsMessages now toLocaleDateString (App.Success count l)
            st n
          = Ok ({| App.messages := out; App.loading := false;
                   App.console := App.console st |}, n'))
  /\ (Exists (fun m => Sms.body m = None) l ->
        App.fetchSmsMessages now toLocaleDateString (App.Success count l) st n
        = Throw TypeError).
Proof.
  split; intros H.
  - destruct (bodies_present l H) as [l' ->].
    destruct (parsedMessages_to_js now toLocaleDateString l' n)
      as (out & Hp & _).
    exists out, (n + List.length (filter keeps l')). split; [exact Hp|].
    unfold App.fetchSmsMessages, bind. rewrite Hp. reflexivity.
  - unfold App.fetchSmsMessages, App.parsedMessages, bind.
    now rewrite filterM_retained_throws.
Qed.

(** ** Instances of the further properties *)

Lemma batch_throws_iff_witness :
  Exists (fun m => Sms.body m = None)
    [Sms.mk 1 (Some "BANK") (Some "Rs.5 debited") (Num 0);
     Sms.mk 2 (Some "BANK") None (Num 0)]
  /\ App.parsedMessages (fun _ => 0%Z) (fun _ => "")
       [Sms.mk 1 (Some "BANK") (Some "Rs.5 debited") (Num 0);
        Sms.mk 2 (Some "BANK") None (Num 0)] 0
     = Throw TypeError
  /\ Forall (fun m => Sms.body m <> None)
       [Sms.mk 1 (Some "BANK") (Some "Rs.5 debited") (Num 0)]
  /\ exists out,
       App.parsedMessages (fun _ => 0%Z) (fun _ => "")
         [Sms.mk 1 (Some "BANK") (Some "Rs.5 debited") (Num 0)] 0
       = Ok (out, 0 + List.length out).
Proof.
  assert (H1 : Exists (fun m => Sms.body m = None)
                 [Sms.mk 1 (Some "BANK") (Some "Rs.5 debited") (Num 0);
                  Sms.mk 2 (Some "BANK") None (Num 0)])
    by (right; left; reflexivity).
  assert (H2 : Forall (fun m => Sms.body m <> None)
                 [Sms.mk 1 (Some "BANK") (Some "Rs.5 debited") (Num 0)])
    by (constructor; [discriminate | constructor]).
  split; [exact H1|].
  split; [exact (proj1 (batch_throws_iff _ _ _ 0) H1)|].
  split; [exact H2|].
  exact (proj2 (batch_throws_iff (fun _ => 0%Z) (fun _ => "") _ 0) H2).
Defined.

Lemma batch_ids_witness :
  NoDup (map RawMessage._id
           [RawMessage.mk 1 None "Rs.5 debited" (Num 0);
            RawMessage.mk 2 None "hello" (Num 0);
            RawMessage.mk 3 None "Rs.9 credited" (Num 0)])
  /\ exists out n',
       App.parsedMessages (fun _ => 0%Z) (fun _ => "")
         (map RawMessage.to_js
            [RawMessage.mk 1 None "Rs.5 debited" (Num 0);
             RawMessage.mk 2 None "hello" (Num 0);
             RawMessage.mk 3 None "Rs.9 credited" (Num 0)]) 0
       = Ok (out, n')
       /\ map SmsMessage.id out = [1; 3]%Z
       /\ NoDup (map SmsMessage.id out).
Proof.
  assert (H : NoDup (map RawMessage._id
                       [RawMessage.mk 1 None "Rs.5 debited" (Num 0);
                        RawMessage.mk 2 None "hello" (Num 0);
                        RawMessage.mk 3 None "Rs.9 credited" (Num 0)])).
  { simpl. repeat constructor; simpl; intuition discriminate. }
  split; [exact H|].
  destruct (batch_ids (fun _ => 0%Z) (fun _ => "")
              [RawMessage.mk 1 None "Rs.5 debited" (Num 0);
               RawMessage.mk 2 None "hello" (Num 0);
               RawMessage.mk 3 None "Rs.9 credited" (Num 0)] 0)
    as (out & n' & Hp & Hid & _ & Hnd).
  exists out, n'. split; [exact Hp|]. split; [exact Hid|]. exact (Hnd H).
Defined.

Lemma sender_never_empty_witness :
  (exists c,
     App.parseMessageDetails (fun _ => 0%Z) (fun _ => "")
       (RawMessage.to_js (RawMessage.mk 1 (Some "") "Rs.5 debited" (Num 0))) 0
     = Ok (c, 1)
     /\ SmsMessage.sender c = "Unknown")
  /\ exists c,
       App.parseMessageDetails (fun _ => 0%Z) (fun _ => "")
         (RawMessage.to_js
            (RawMessage.mk 1 (Some "AX-HDFC") "Rs.5 debited" (Num 0))) 0
       = Ok (c, 1)
       /\ SmsMessage.sender c = "AX-HDFC".
Proof.
  split.
  - destruct (sender_never_empty (fun _ => 0%Z) (fun _ => "")
                (RawMessage.mk 1 (Some "") "Rs.5 debited" (Num 0)) 0)
      as (c & Hc & _ & He & _).
    exists c. split; [exact Hc | exact (He eq_refl)].
  - destruct (sender_never_empty (fun _ => 0%Z) (fun _ => "")
                (RawMessage.mk 1 (Some "AX-HDFC") "Rs.5 debited" (Num 0)) 0)
      as (c & Hc & _ & _ & Ha).
    exists c. split; [exact Hc|].
    apply (Ha "AX-HDFC" eq_refl). discriminate.
Defined.



Lemma search_by_amount_witness :
  exists c,
    App.parseMessageDetails (fun _ => 0%Z) (fun _ => "")
      (RawMessage.to_js
         (RawMessage.mk 1 (Some "BANK") "INR 1,250.00 debited" (Num 0))) 0
    = Ok (c, 1)
    /\ SmsMessage.amount c = "1,250.00"
    /\ In c (App.filteredMessages [c] all (SmsMessage.amount c)).
Proof.
  destruct (search_by_amount (fun _ => 0%Z) (fun _ => "")
              (RawMessage.mk 1 (Some "BANK") "INR 1,250.00 debited" (Num 0)) 0)
    as (c & Hc & Hs).
  exists c. split; [exact Hc|].
  destruct (parseMessageDetails_to_js (fun _ => 0%Z) (fun _ => "")
              (RawMessage.mk 1 (Some "BANK") "INR 1,250.00 debited" (Num 0)) 0)
    as (t & _ & Hr).
  rewrite Hr in Hc. injection Hc as <-. cbn [SmsMessage.amount] in *.
  assert (E : extractAmount "INR 1,250.00 debited" = "1,250.00")
    by (vm_compute; reflexivity).
  cbn [RawMessage.body] in *. rewrite E in *.
  split; [reflexivity|].
  apply Hs; [discriminate | left; reflexivity].
Defined.

Lemma fetch_success_outcome_witness :
  Forall (fun m => Sms.body m <> None)
    [Sms.mk 1 (Some "BANK") (Some "Rs.5 debited") (Num 0)]
  /\ Exists (fun m => Sms.body m = None) [Sms.mk 2 (Some "BANK") None (Num 0)]
  /\ (exists out n',
        App.fetchSmsMessages (fun _ => 0%Z) (fun _ => "")
          (App.Success 1 [Sms.mk 1 (Some "BANK") (Some "Rs.5 debited") (Num 0)])
          (App.mkApp [] true []) 0
        = Ok ({| App.messages := out; App.loading := false;
                 App.console := [] |}, n'))
  /\ App.fetchSmsMessages (fun _ => 0%Z) (fun _ => "")
       (App.Success 1 [Sms.mk 2 (Some "BANK") None (Num 0)])
       (App.mkApp [] true []) 0
     = Throw TypeError.
Proof.
  assert (H1 : Forall (fun m => Sms.body m <> None)
                 [Sms.mk 1 (Some "BANK") (Some "Rs.5 debited") (Num 0)])
    by (constructor; [discriminate | constructor]).
  assert (H2 : Exists (fun m => Sms.body m = None)
                 [Sms.mk 2 (Some "BANK") None (Num 0)])
    by (left; reflexivity).
  split; [exact H1|]. split; [exact H2|]. split.
  - destruct (proj1 (fetch_success_outcome (fun _ => 0%Z) (fun _ => "")
                       (App.mkApp [] true []) 1 _ 0) H1)
      as (out & n' & _ & Hf).
    exists out, n'. exact Hf.
  - exact (proj2 (fetch_success_outcome (fun _ => 0%Z) (fun _ => "")
                    (App.mkApp [] true []) 1 _ 0) H2).
Defined.

(** ** The tabs over a classified batch *)

(** X18: over the output of a batch and with an empty search box, the
    debited tab shows exactly the records whose lower-cased body contains
    "debited" and the credited tab shows exactly the other records. *)
Theorem tabs_of_batch (now : nat -> Z) (toLocaleDateString : Z -> string)
    (l : list RawMessage.t) (n : nat) :
  exists out n',
    App.parsedMessages now toLocaleDateString (map RawMessage.to_js l) n
      = Ok (out, n')
    /\ App.filteredMessages out (only debited) ""
       = filter (fun c => includes (toLowerCase (SmsMessage.body c)) "debited")
           out
    /\ App.filteredMessages out (only credited) ""
       = filter
           (fun c => negb (includes (toLowerCase (SmsMessage.body c)) "debited"))
           out.
Proof.
  destruct (parsedMessages_to_js now toLocaleDateString l n)
    as (out & Hp & _ & Ho).
  exists out, (n + List.length (filter keeps l)). split; [exact Hp|].
  assert (Hty : forall c, In c out ->
            SmsMessage.type c =
              if includes (toLowerCase (SmsMessage.body c)) "debited"
              then debited else credited).
  { intros c Hc. destruct (outputs_In _ _ _ _ _ _ Ho Hc) as (r & k & _ & Hk).
    apply parse_body in Hk as (-> & _ & ->). reflexivity. }
  assert (Hsh : forall d c, ViewSpec.shown (only d) "" c
                            = txn_type_eqb (SmsMessage.type c) d).
  { intros d c. unfold ViewSpec.shown, ViewSpec.search_ok. simpl.
    now rewrite includes_empty, andb_true_r. }
  rewrite !filteredMessages_shown. split.
  - apply filter_ext_in. intros c Hc. rewrite Hsh, (Hty c Hc).
    now destruct (includes _ "debited").
  - apply filter_ext_in. intros c Hc. rewrite Hsh, (Hty c Hc).
    now destruct (includes _ "debited").
Qed.

Lemma credited_output_contains_credited_witness :
  includes "Rs.9 credited to a/c" "credited" = true.
Proof.
  apply (credited_output_contains_credited (fun _ => 0%Z) (fun _ => "")
           [RawMessage.mk 3 (Some "BANK") "Rs.9 credited to a/c" (Num 0)] 0 1
           [SmsMessage.mk 3 "Rs.9 credited to a/c" "BANK" "9" ""
              "0 minute(s) ago" credited None]
           (SmsMessage.mk 3 "Rs.9 credited to a/c" "BANK" "9" ""
              "0 minute(s) ago" credited None)).
  - reflexivity.
  - left; reflexivity.
  - reflexivity.
Defined.

Lemma view_partition_witness :
  In (SmsMessage.mk 1 "Rs.5 debited" "HDFC-Bank" "5" "" "" debited None)
     (App.filteredMessages
        [SmsMessage.mk 0 "Rs.9 credited" "HDFC-Bank" "9" "" "" credited None;
         SmsMessage.mk 1 "Rs.5 debited" "HDFC-Bank" "5" "" "" debited None]
        all "rs")
  /\ In (SmsMessage.mk 1 "Rs.5 debited" "HDFC-Bank" "5" "" "" debited None)
        (App.filteredMessages
           [SmsMessage.mk 0 "Rs.9 credited" "HDFC-Bank" "9" "" "" credited None;
            SmsMessage.mk 1 "Rs.5 debited" "HDFC-Bank" "5" "" "" debited None]
           (only debited) "rs").
Proof.
  assert (H : In (SmsMessage.mk 1 "Rs.5 debited" "HDFC-Bank" "5" "" ""
                    debited None)
                (App.filteredMessages
                   [SmsMessage.mk 0 "Rs.9 credited" "HDFC-Bank" "9" "" ""
                      credited None;
                    SmsMessage.mk 1 "Rs.5 debited" "HDFC-Bank" "5" "" ""
                      debited None]
                   all "rs"))
    by (right; left; reflexivity).
  split; [exact H|].
  apply (proj2 (view_partition _ "rs")). split; [exact H | reflexivity].
Defined.
